(** * Conversational registration flow of backend/webhook.js

    A shallow embedding of the WhatsApp webhook handler: the session hash kept
    in Redis, the [codes] table kept in PostgreSQL, the OpenAI-backed field
    extractor and the outbound text channel.  Every external call is an
    explicit step of a small state/exception monad that also emits the call
    (with its result) as an event, so that theorems can speak about what the
    handler asked of its collaborators and in which order. *)

From stdpp Require Import gmap strings list fin_maps.

Open Scope string_scope.
Open Scope list_scope.
Open Scope nat_scope.

(** ** The [codes] table *)

Module Codes.

(** One row of the [codes] table, with the columns the queries of
    webhook.js read and write.  Nullable columns are options; [created_at]
    is a time stamp in seconds. *)
Record row := Row {
  code : string;
  code_id : string;
  status : string;
  phone_number : option string;
  name : option string;
  email : option string;
  city : option string;
  created_at : option nat;
  is_winner : bool
}.

(** [WHERE code = $5 AND status = 'active'] *)
Definition is_active_code (c : string) (r : row) : bool :=
  bool_decide (code r = c) && bool_decide (status r = "active").

(** [WHERE email = $1] *)
Definition has_email (em : string) (r : row) : bool :=
  bool_decide (email r = Some em).

(** [SET phone_number = $1, "name" = $2, email = $3, city = $4,
     status = 'inactive', created_at = NOW()] *)
Definition claim_row (ph : option string) (nm em ct : option string)
    (t : nat) (r : row) : row :=
  {| code := code r; code_id := code_id r; status := "inactive";
     phone_number := ph; name := nm; email := em; city := ct;
     created_at := Some t; is_winner := is_winner r |}.

End Codes.

(** The three statements the conversation flow sends to the pool. *)
Inductive sql :=
| SelectByEmail (em : string)
    (* SELECT * FROM codes WHERE email = $1 *)
| SelectActiveByCode (c : string)
    (* SELECT * FROM codes WHERE status = 'active' AND code = $1 *)
| UpdateClaim (ph nm em ct : option string) (c : string).
    (* UPDATE codes SET ... WHERE code = $5 AND status = 'active' RETURNING * *)

(** What one statement does to the table at time [t]: the rows it returns
    and the table it leaves. *)
Definition exec (q : sql) (t : nat) (tbl : list Codes.row)
    : list Codes.row * list Codes.row :=
  match q with
  | SelectByEmail em => (filter (fun r => Codes.has_email em r = true) tbl, tbl)
  | SelectActiveByCode c =>
      (filter (fun r => Codes.is_active_code c r = true) tbl, tbl)
  | UpdateClaim ph nm em ct c =>
      (Codes.claim_row ph nm em ct t
         <$> filter (fun r => Codes.is_active_code c r = true) tbl,
       (fun r => if Codes.is_active_code c r
                 then Codes.claim_row ph nm em ct t r else r) <$> tbl)
  end.

(** ** The extractor's verdict, events and the world *)

(** The JSON object the extractor is asked to produce. *)
Record validation := Validation {
  message : string;
  is_valid : bool;
  value : string
}.

Inductive error := RedisError | PgError | AxiosError.

Inductive redis_cmd :=
| HGetAll (key : string)
| HSet (key : string) (fields : gmap string string)
| Expire (key : string) (seconds : nat)
| Del (key : string).

(** One external call together with what came back. *)
Inductive event :=
| EvRedis (c : redis_cmd) (ok : bool)
| EvChat (userInput currentStep : string) (sessionData : gmap string string)
         (res : option validation)
| EvQuery (q : sql) (nrows : option nat)
| EvSend (to body : string) (ok : bool).

(** What the process does not control.  Every external call consumes one
    tick; the environment decides at each tick whether the call fails, what
    the language model answers ([None]: the request or the parsing of its
    answer raised), and which transactions of other requests were committed
    on the table just before a statement of this one runs. *)
Record env := Env {
  openai_chat : nat -> string -> string -> gmap string string -> option validation;
  redis_fault : nat -> bool;
  pg_fault : nat -> bool;
  axios_fault : nat -> bool;
  pg_concurrent : nat -> list Codes.row -> list Codes.row
}.

Record world := World {
  redis : gmap string (gmap string string);  (* the hashes *)
  deadline : gmap string nat;                (* absolute expiry of a key *)
  codes_table : list Codes.row;
  now : nat;                                 (* seconds *)
  tick : nat
}.

Definition set_redis (h : gmap string (gmap string string)) (d : gmap string nat)
    (w : world) : world :=
  {| redis := h; deadline := d; codes_table := codes_table w;
     now := now w; tick := tick w |}.

Definition set_codes_table (tbl : list Codes.row) (w : world) : world :=
  {| redis := redis w; deadline := deadline w; codes_table := tbl;
     now := now w; tick := tick w |}.

Definition next_tick (w : world) : world :=
  {| redis := redis w; deadline := deadline w; codes_table := codes_table w;
     now := now w; tick := S (tick w) |}.

(** Time passing between two inbound events. *)
Definition advance (d : nat) (w : world) : world :=
  {| redis := redis w; deadline := deadline w; codes_table := codes_table w;
     now := now w + d; tick := tick w |}.

(** Time passes inside a request as well, while a call is awaited:
    [lapse n] seconds of the store's clock go by during the call issued at
    tick [n]. *)
Class Clock := { lapse : nat -> nat }.

(** [d] seconds go by: [advance d w], written so that a call that takes no
    time leaves the world as it is. *)
Definition pass (d : nat) (w : world) : world :=
  match d with
  | 0 => w
  | S _ => advance d w
  end.


(** ** The texts the engine itself authors *)

Definition welcome_message : string :=
  "  
      👋 Welcome to Maidan 72! 🏏

        Your chance to win ICC Women's World Cup tickets & unlock once-in-a-lifetime experiences starts now!

        Rules & Terms:
        * Each entry must be from a valid Rexona purchase.
        * One entry per unique secret code.
        * Winners will be selected at random for match tickets, special access, and more.
        * Only users from India are eligible.
        * For full details, please see our [official T&Cs here](https://www.unilevernotices.com/privacy-notices/india-english.html).

        🔒 Your privacy matters! We keep your information secure and use it only for contest participation and updates. Read more at the link above.
      
        If you agree to the terms and conditions, please enter your full name.
    ".

Definition already_registered_message : string :=
  "❌ This email is already registered with us. Please provide a different email address:".

Definition email_check_failed_message : string :=
  "⚠️ Something went wrong while checking your email. Please try again later.".

Definition registration_complete_message : string :=
  "🎉 Congratulations! Your registration is complete. Your details have been saved and the scratch code has been marked as used.".

Definition registration_failed_message : string :=
  "⚠️ Registration failed. Please try again or contact support.".

Definition invalid_code_message : string :=
  "❌ Invalid scratch code. This code is not found in our system or has already been used. Please provide a valid scratch code:".

Definition code_check_failed_message : string :=
  "⚠️ Something went wrong while checking your scratch code. Please try again later.".

(** ** The inbound event *)

(** One WhatsApp message: the sender and, when it is a text, its body
    ([msg.text?.body]). *)
Record wa_message := WaMessage {
  from : string;
  text_body : option string
}.

Record wa_value := WaValue { messages : option (list wa_message) }.
Record wa_change := WaChange { change_value : option wa_value }.
Record wa_entry := WaEntry { changes : option (list wa_change) }.
Record wa_body := WaBody { entry : option (list wa_entry) }.

(** [body.entry?.[0]?.changes?.[0]?.value?.messages?.[0]] *)
Definition first_message (body : wa_body) : option wa_message :=
  e0 ← entry body ≫= head;
  c0 ← changes e0 ≫= head;
  v ← change_value c0;
  messages v ≫= head.

(** [String.prototype.trim] strips WhiteSpace and LineTerminator at both
    ends.  Texts are held as UTF-8, so these are the six one-byte
    characters, U+00A0 on two bytes, and eight kinds on three bytes. *)
Definition is_space (c : Ascii.ascii) : bool :=
  let n := Ascii.nat_of_ascii c in
  (9 <=? n) && (n <=? 13) || (n =? 32).

(** U+00A0. *)
Definition is_space2 (a b : Ascii.ascii) : bool :=
  (Ascii.nat_of_ascii a =? 194) && (Ascii.nat_of_ascii b =? 160).

(** U+1680, U+2000 to U+200A, U+2028, U+2029, U+202F, U+205F, U+3000 and
    U+FEFF. *)
Definition is_space3 (a b c : Ascii.ascii) : bool :=
  let x := Ascii.nat_of_ascii a in
  let y := Ascii.nat_of_ascii b in
  let z := Ascii.nat_of_ascii c in
  (x =? 225) && (y =? 154) && (z =? 128)
  || (x =? 226) && (y =? 128)
     && ((128 <=? z) && (z <=? 138) || (z =? 168) || (z =? 169) || (z =? 175))
  || (x =? 226) && (y =? 129) && (z =? 159)
  || (x =? 227) && (y =? 128) && (z =? 128)
  || (x =? 239) && (y =? 187) && (z =? 191).

Fixpoint trim_start (s : string) : string :=
  match s with
  | String a s1 =>
      if is_space a then trim_start s1
      else match s1 with
           | String b s2 =>
               if is_space2 a b then trim_start s2
               else match s2 with
                    | String c s3 =>
                        if is_space3 a b c then trim_start s3 else s
                    | EmptyString => s
                    end
           | EmptyString => s
           end
  | EmptyString => EmptyString
  end.

(** The same on the reversed text: the last byte comes first. *)
Fixpoint trim_start_rev (s : string) : string :=
  match s with
  | String c s1 =>
      if is_space c then trim_start_rev s1
      else match s1 with
           | String b s2 =>
               if is_space2 b c then trim_start_rev s2
               else match s2 with
                    | String a s3 =>
                        if is_space3 a b c then trim_start_rev s3 else s
                    | EmptyString => s
                    end
           | EmptyString => s
           end
  | EmptyString => EmptyString
  end.

Definition trim_end (s : string) : string :=
  String.rev (trim_start_rev (String.rev s)).

Definition trim (s : string) : string := trim_end (trim_start s).

(** [x || y] on values that are strings or undefined. *)
Definition or_else (x : option string) (y : string) : string :=
  match x with
  | Some (String c s) => String c s
  | _ => y
  end.

(** [!x] on a value that is a string or undefined. *)
Definition falsy (x : option string) : bool :=
  match x with
  | Some (String _ _) => false
  | _ => true
  end.

Definition sessionKey_of (from : string) : string := "session:" +:+ from.

(** ** The monad of the handler *)

Inductive outcome (A : Type) :=
| Return (a : A)
| Throw (err : error).
Arguments Return {A} a.
Arguments Throw {A} err.

Definition M (A : Type) : Type := world -> outcome A * world * list event.

Definition ret {A} (a : A) : M A := fun w => (Return a, w, []).

Definition throw {A} (err : error) : M A := fun w => (Throw err, w, []).

Definition bind {A B} (m : M A) (k : A -> M B) : M B :=
  fun w =>
    match m w with
    | (Return a, w1, t1) =>
        match k a w1 with (r, w2, t2) => (r, w2, t1 ++ t2) end
    | (Throw err, w1, t1) => (Throw err, w1, t1)
    end.

(** [try { m } catch (err) { h err }] *)
Definition try_catch {A} (m : M A) (h : error -> M A) : M A :=
  fun w =>
    match m w with
    | (Return a, w1, t1) => (Return a, w1, t1)
    | (Throw err, w1, t1) =>
        match h err w1 with (r, w2, t2) => (r, w2, t1 ++ t2) end
    end.

Notation "x <- m ;; k" := (bind m (fun x => k))
  (at level 100, m at next level, right associativity).
Notation "m ;;; k" := (bind m (fun _ => k))
  (at level 100, right associativity).

(** ** Redis: hashes with expiry *)

Definition expired (w : world) (k : string) : bool :=
  match deadline w !! k with
  | Some d => d <=? now w
  | None => false
  end.

(** A key past its deadline is gone by the time any command touches it. *)
Definition purge (k : string) (w : world) : world :=
  if expired w k then set_redis (delete k (redis w)) (delete k (deadline w)) w
  else w.

(** The hash a client sees under [k]: empty when absent or expired. *)
Definition session_of (w : world) (k : string) : gmap string string :=
  default ∅ (redis (purge k w) !! k).

Definition redis_apply (c : redis_cmd) (w : world) : world :=
  match c with
  | HGetAll k => purge k w
  | HSet k fields =>
      let w1 := purge k w in
      set_redis (<[k := fields ∪ default ∅ (redis w1 !! k)]> (redis w1))
                (deadline w1) w1
  | Expire k secs =>
      let w1 := purge k w in
      match redis w1 !! k with
      | Some _ => set_redis (redis w1) (<[k := now w1 + secs]> (deadline w1)) w1
      | None => w1
      end
  | Del k => set_redis (delete k (redis w)) (delete k (deadline w)) w
  end.

Section Handler.

Context {clk : Clock}.
Variable e : env.

(** The world once the call issued in [w0] has been answered: one more
    call made, and the time it took gone by. *)
Definition answered (w0 w : world) : world :=
  pass (lapse (tick w0)) (next_tick w).

(** A Redis command either raises and leaves the store alone, or applies. *)
Definition redis_call (c : redis_cmd) : M unit :=
  fun w =>
    if redis_fault e (tick w)
    then (Throw RedisError, answered w w, [EvRedis c false])
    else (Return tt, answered w (redis_apply c w), [EvRedis c true]).

Definition hGetAll (key : string) : M (gmap string string) :=
  fun w =>
    match redis_call (HGetAll key) w with
    | (Return _, w1, t) => (Return (session_of w key), w1, t)
    | (Throw err, w1, t) => (Throw err, w1, t)
    end.

Definition hSet (key : string) (fields : gmap string string) : M unit :=
  redis_call (HSet key fields).

Definition expire (key : string) (seconds : nat) : M unit :=
  redis_call (Expire key seconds).

Definition del (key : string) : M unit :=
  redis_call (Del key).

(** [pool.query]: the statement runs on the table as other requests left
    it; a failing statement changes nothing. *)
Definition pool_query (q : sql) : M (list Codes.row) :=
  fun w =>
    let tbl := pg_concurrent e (tick w) (codes_table w) in
    if pg_fault e (tick w)
    then (Throw PgError, answered w (set_codes_table tbl w), [EvQuery q None])
    else
      let res := exec q (now w) tbl in
      (Return (fst res), answered w (set_codes_table (snd res) w),
       [EvQuery q (Some (length (fst res)))]).

(** [sendText]: one POST to the messaging API. *)
Definition sendText (to body : string) : M unit :=
  fun w =>
    if axios_fault e (tick w)
    then (Throw AxiosError, answered w w, [EvSend to body false])
    else (Return tt, answered w w, [EvSend to body true]).

Definition retry_message : string :=
  "Sorry, I'm having trouble processing your input. Please try again.".

(** [validateWithOpenAI]: whatever goes wrong inside the [try] block ends
    in the [catch], which answers with an invalid verdict. *)
Definition validateWithOpenAI (userInput currentStep : string)
    (sessionData : gmap string string) : M validation :=
  fun w =>
    let res := openai_chat e (tick w) userInput currentStep sessionData in
    (Return (match res with
             | Some result => result
             | None => {| message := retry_message; is_valid := false;
                          value := EmptyString |}
             end),
     answered w w, [EvChat userInput currentStep sessionData res]).

(** [updateCodeInDatabase({ phone, name, email, city, code })] *)
Definition updateCodeInDatabase (phone name email city : option string)
    (code : string) : M bool :=
  try_catch
    (result <- pool_query (UpdateClaim phone name email city code) ;;
     if 0 <? length result then ret true else ret false)
    (fun err => throw err).

(** [app.post("/webhook", ...)]: the status code of the response, or the
    exception that escaped the handler. *)
Definition webhook_post (body : wa_body) : M nat :=
  match first_message body with
  | None => ret 200
  | Some msg =>
    let from := from msg in
    let text := trim (or_else (text_body msg) EmptyString) in
    let sessionKey := sessionKey_of from in
    session <- hGetAll sessionKey ;;
    if falsy (session !! "step") then
      sendText from welcome_message ;;;
      hSet sessionKey {[ "step" := "ASK_NAME"; "phone" := from ]} ;;;
      expire sessionKey (30 * 60) ;;;
      ret 200
    else if bool_decide (session !! "step" = Some "ASK_NAME") then
      validation <- validateWithOpenAI text "ASK_NAME" session ;;
      sendText from (message validation) ;;;
      (if is_valid validation
       then hSet sessionKey
              {[ "step" := "ASK_EMAIL"; "name" := value validation ]}
       else ret tt) ;;;
      ret 200
    else if bool_decide (session !! "step" = Some "ASK_EMAIL") then
      validation <- validateWithOpenAI text "ASK_EMAIL" session ;;
      if negb (is_valid validation) then
        sendText from (message validation) ;;;
        ret 200
      else
        try_catch
          (emailCheck <- pool_query (SelectByEmail (value validation)) ;;
           if 0 <? length emailCheck then
             sendText from already_registered_message
           else
             sendText from (message validation) ;;;
             hSet sessionKey
               {[ "step" := "ASK_CITY"; "email" := value validation ]})
          (fun err => sendText from email_check_failed_message) ;;;
        ret 200
    else if bool_decide (session !! "step" = Some "ASK_CITY") then
      validation <- validateWithOpenAI text "ASK_CITY" session ;;
      sendText from (message validation) ;;;
      (if is_valid validation
       then hSet sessionKey
              {[ "step" := "ASK_CODE"; "city" := value validation ]}
       else ret tt) ;;;
      ret 200
    else if bool_decide (session !! "step" = Some "ASK_CODE") then
      validation <- validateWithOpenAI text "ASK_CODE" session ;;
      if negb (is_valid validation) then
        sendText from (message validation) ;;;
        ret 200
      else
        try_catch
          (result <- pool_query (SelectActiveByCode (value validation)) ;;
           if 0 <? length result then
             hSet sessionKey {[ "code" := value validation ]} ;;;
             updateSuccess <-
               updateCodeInDatabase
                 (Some (or_else (session !! "phone") from))
                 (session !! "name") (session !! "email")
                 (session !! "city") (value validation) ;;
             if updateSuccess then
               del sessionKey ;;;
               sendText from registration_complete_message
             else
               sendText from registration_failed_message
           else
             sendText from invalid_code_message)
          (fun err => sendText from code_check_failed_message) ;;;
        ret 200
    else ret 200
  end.

End Handler.

(** A request handled at one instant of the store's clock.  A statement
    that names no clock is about this one: time passes between requests
    ([advance]), none inside them. *)
#[export] Instance steady : Clock := {| lapse := fun _ => 0 |}.

(** ** Vocabulary of the statements *)

(** The services answer: no Redis command, statement or outbound POST of
    the request raises. *)
Definition healthy (e : env) : Prop :=
  forall n, redis_fault e n = false /\ pg_fault e n = false
            /\ axios_fault e n = false.

(** No other request writes the table while this one runs. *)
Definition quiet (e : env) : Prop :=
  forall n tbl, pg_concurrent e n tbl = tbl.

(** What [validateWithOpenAI] hands back for an answer of the model. *)
Definition verdict (res : option validation) : validation :=
  match res with
  | Some result => result
  | None => {| message := retry_message; is_valid := false; value := EmptyString |}
  end.

(** The bodies of the outbound texts among the events, in order. *)
Definition sent (evs : list event) : list string :=
  omap (fun ev => match ev with EvSend _ body _ => Some body | _ => None end) evs.

(** The key of the sender's session and the text handed to the extractor. *)
Definition key_of (msg : wa_message) : string := sessionKey_of (from msg).
Definition text_of (msg : wa_message) : string :=
  trim (or_else (text_body msg) EmptyString).

(** The model's answer to the request that starts in [w]: the extractor is
    the second external call, after the session was read. *)
Definition reply_at (e : env) (w : world) (msg : wa_message) (step : string)
    : option validation :=
  openai_chat e (S (tick w)) (text_of msg) step (session_of w (key_of msg)).

(** The table as the [n]-th later call of the request finds it. *)
Definition table_seen (e : env) (n : nat) (w : world) : list Codes.row :=
  pg_concurrent e (n + tick w) (codes_table w).

(** The seconds that go by in step ASK_CODE between the read of the session
    and the write of the code: the read itself, the extractor and the
    lookup. *)
Definition code_wait {clk : Clock} (w : world) : nat :=
  lapse (tick w) + lapse (1 + tick w) + lapse (2 + tick w).

(** The seconds the first four calls of a request take; every write of a
    session field is among them or follows them immediately. *)
Definition request_wait {clk : Clock} (w : world) : nat :=
  lapse (tick w) + lapse (1 + tick w) + lapse (2 + tick w)
  + lapse (3 + tick w).

(** The key [k] has not run out [d] seconds after [w]. *)
Definition outlives (d : nat) (w : world) (k : string) : bool :=
  negb (expired (advance d w) k).

(** The ledger's invariant on codes: at any instant at most one active row
    carries a given code. *)
Definition active_codes_unique (tbl : list Codes.row) : Prop :=
  forall c, length (filter (fun r => Codes.is_active_code c r = true) tbl) <= 1.

(** A claim as a request issues it: the arguments of
    [updateCodeInDatabase]. *)
Record claim_request := ClaimRequest {
  phone : option string;
  claimant : option string;
  claimant_email : option string;
  claimant_city : option string;
  wanted : string
}.

(** The number of active rows carrying code [c]. *)
Definition active_rows (c : string) (tbl : list Codes.row) : nat :=
  length (filter (fun r => Codes.is_active_code c r = true) tbl).

(** The claims other requests commit, one statement after the other, each
    at its own time: what [updateCodeInDatabase] returned to each of them
    and the table they leave. *)
Fixpoint run_claims (reqs : list (claim_request * nat)) (tbl : list Codes.row)
    : list bool * list Codes.row :=
  match reqs with
  | [] => ([], tbl)
  | (q, t) :: rest =>
      let out := exec (UpdateClaim (phone q) (claimant q) (claimant_email q)
                         (claimant_city q) (wanted q)) t tbl in
      let res := run_claims rest (snd out) in
      ((0 <? length (fst out)) :: fst res, snd res)
  end.

(** How many of the requests for code [c] were answered [true]. *)
Fixpoint wins (c : string) (reqs : list claim_request) (bs : list bool) : nat :=
  match reqs, bs with
  | q :: reqs', b :: bs' =>
      (if bool_decide (wanted q = c) && b then 1 else 0) + wins c reqs' bs'
  | _, _ => 0
  end.

(** No deadline is set or moved between two worlds: each is kept or dropped. *)
Definition timers_kept (w w' : world) : Prop :=
  forall k, deadline w' !! k = deadline w !! k \/ deadline w' !! k = None.

Definition is_expire (ev : event) : bool :=
  match ev with
  | EvRedis (Expire _ _) _ => true
  | _ => false
  end.

(** A computation that never calls [expire] and never sets a deadline. *)
Definition timer_safe {A} (m : M A) : Prop :=
  forall w r w' evs,
    m w = (r, w', evs) ->
    timers_kept w w' /\ filter (fun ev => is_expire ev = true) evs = [].

(** The texts the engine words itself, as opposed to the extractor's. *)
Definition engine_texts : list string :=
  [welcome_message; already_registered_message; email_check_failed_message;
   registration_complete_message; registration_failed_message;
   invalid_code_message; code_check_failed_message].

(** ** Sample worlds *)

Definition text_event (sender txt : string) : wa_body :=
  WaBody (Some [WaEntry (Some [WaChange (Some (WaValue (Some
    [WaMessage sender (Some txt)])))])]).

(** A delivery receipt: an event whose value carries no [messages]. *)
Definition status_event : wa_body :=
  WaBody (Some [WaEntry (Some [WaChange (Some (WaValue None))])]).

Definition fresh_code (c id : string) : Codes.row :=
  {| Codes.code := c; Codes.code_id := id; Codes.status := "active";
     Codes.phone_number := None; Codes.name := None; Codes.email := None;
     Codes.city := None; Codes.created_at := None; Codes.is_winner := false |}.

Definition used_code (c id em : string) : Codes.row :=
  {| Codes.code := c; Codes.code_id := id; Codes.status := "inactive";
     Codes.phone_number := Some "+919999999"; Codes.name := Some "Asha Rao";
     Codes.email := Some em; Codes.city := Some "Pune";
     Codes.created_at := Some 500; Codes.is_winner := false |}.

Definition sample_table : list Codes.row :=
  [fresh_code "ABC123" "id-1"; used_code "OLD111" "id-2" "asha@example.com"].

(** An extractor that accepts everything and echoes the text as the value. *)
Definition echo_chat (n : nat) (txt step : string) (s : gmap string string)
    : option validation :=
  Some {| message := "Great, noted! What comes next?"; is_valid := true;
          value := txt |}.

(** An extractor that rejects everything. *)
Definition strict_chat (n : nat) (txt step : string) (s : gmap string string)
    : option validation :=
  Some {| message := "That does not look right, please try again.";
          is_valid := false; value := EmptyString |}.

Definition env_ok : env :=
  {| openai_chat := echo_chat; redis_fault := fun _ => false;
     pg_fault := fun _ => false; axios_fault := fun _ => false;
     pg_concurrent := fun _ tbl => tbl |}.

Definition env_strict : env :=
  {| openai_chat := strict_chat; redis_fault := fun _ => false;
     pg_fault := fun _ => false; axios_fault := fun _ => false;
     pg_concurrent := fun _ tbl => tbl |}.

(** The model is unreachable; everything else works. *)
Definition env_model_down : env :=
  {| openai_chat := fun _ _ _ _ => None; redis_fault := fun _ => false;
     pg_fault := fun _ => false; axios_fault := fun _ => false;
     pg_concurrent := fun _ tbl => tbl |}.

(** PostgreSQL is unreachable. *)
Definition env_pg_down : env :=
  {| openai_chat := echo_chat; redis_fault := fun _ => false;
     pg_fault := fun _ => true; axios_fault := fun _ => false;
     pg_concurrent := fun _ tbl => tbl |}.


(** Another registrant's claim and an environment in which it is committed
    just before the first statement of a request that starts at tick 0. *)
Definition rival : claim_request :=
  {| phone := Some "+918888888"; claimant := Some "Ravi";
     claimant_email := Some "ravi@example.com"; claimant_city := Some "Delhi";
     wanted := "ABC123" |}.

Definition env_rival : env :=
  {| openai_chat := echo_chat; redis_fault := fun _ => false;
     pg_fault := fun _ => false; axios_fault := fun _ => false;
     pg_concurrent := fun n tbl =>
       if n =? 0 then snd (run_claims [(rival, 900)] tbl) else tbl |}.

(** A clock on which every awaited call takes five seconds. *)
Definition slow : Clock := {| lapse := fun _ => 5 |}.

Definition sender : string := "+911234567".

Definition world_with (s : option (gmap string string)) (tbl : list Codes.row)
    : world :=
  {| redis := match s with
              | Some h => {[ sessionKey_of sender := h ]}
              | None => ∅
              end;
     deadline := match s with
                 | Some _ => {[ sessionKey_of sender := 2000 ]}
                 | None => ∅
                 end;
     codes_table := tbl; now := 1000; tick := 0 |}.

Definition at_name : gmap string string :=
  {[ "step" := "ASK_NAME"; "phone" := sender ]}.
Definition at_email : gmap string string :=
  {[ "step" := "ASK_EMAIL"; "phone" := sender; "name" := "John Doe" ]}.
Definition at_city : gmap string string :=
  {[ "step" := "ASK_CITY"; "phone" := sender; "name" := "John Doe";
     "email" := "john@example.com" ]}.
Definition at_code : gmap string string :=
  {[ "step" := "ASK_CODE"; "phone" := sender; "name" := "John Doe";
     "email" := "john@example.com"; "city" := "Mumbai" ]}.

(** ** Vocabulary of the wider properties *)

(** The key a Redis command is about. *)
Definition cmd_key (c : redis_cmd) : string :=
  match c with
  | HGetAll k => k
  | HSet k _ => k
  | Expire k _ => k
  | Del k => k
  end.

(** An event that concerns nobody but [who]: a Redis command on that
    address's session key, a text sent to that address, or a call that is
    addressed to no user at all. *)
Definition about_sender (who : string) (ev : event) : Prop :=
  match ev with
  | EvRedis c _ => cmd_key c = sessionKey_of who
  | EvSend to _ _ => to = who
  | EvChat _ _ _ _ => True
  | EvQuery _ _ => True
  end.

(** Every key other than [k] holds the hash and the deadline it held. *)
Definition others_kept (k : string) (w w' : world) : Prop :=
  forall k', k' <> k ->
    redis w' !! k' = redis w !! k' /\ deadline w' !! k' = deadline w !! k'.

(** The table has the same rows in the same places, up to what a claim may
    do to an active row: no row appears or disappears, no row changes its
    code, its id or its winner flag, and a row that is not active is left
    exactly as it is. *)
Definition ledger_kept (w w' : world) : Prop :=
  Forall2 (fun r r' =>
             Codes.code r' = Codes.code r
             /\ Codes.code_id r' = Codes.code_id r
             /\ Codes.is_winner r' = Codes.is_winner r
             /\ (Codes.status r <> "active" -> r' = r))
          (codes_table w) (codes_table w').

(** A computation all of whose runs relate the worlds by [R] and emit only
    events satisfying [P]. *)
Definition keeps {A} (R : world -> world -> Prop) (P : event -> Prop)
    (m : M A) : Prop :=
  forall w r w' evs, m w = (r, w', evs) -> R w w' /\ Forall P evs.

(** Two conversations under way: the sample sender is about to give the
    code, somebody else has just been welcomed. *)
Definition bystander : string := "+917777777".

(** The sender at ASK_CITY, ten seconds before the session runs out. *)
Definition world_running_out : world :=
  {| redis := {[ sessionKey_of sender := at_city ]};
     deadline := {[ sessionKey_of sender := 1010 ]};
     codes_table := sample_table; now := 1000; tick := 0 |}.

Definition two_sessions : world :=
  {| redis := {[ sessionKey_of sender := at_code;
                 sessionKey_of bystander :=
                   {[ "step" := "ASK_NAME"; "phone" := bystander ]} ]};
     deadline := {[ sessionKey_of sender := 2000;
                    sessionKey_of bystander := 2700 ]};
     codes_table := sample_table; now := 1000; tick := 0 |}.

(** One service answering throughout a request. *)
Definition redis_up (e : env) : Prop := forall n, redis_fault e n = false.
Definition axios_up (e : env) : Prop := forall n, axios_fault e n = false.


(** The messaging API is unreachable. *)
Definition env_axios_down : env :=
  {| openai_chat := echo_chat; redis_fault := fun _ => false;
     pg_fault := fun _ => false; axios_fault := fun _ => true;
     pg_concurrent := fun _ tbl => tbl |}.

(** A session as the handler builds it for [who]: either there is no step
    yet, or the phone is the sender's address, the step is one of the four,
    and the fields of the steps already passed are there. *)
Definition session_ok (who : string) (s : gmap string string) : Prop :=
  falsy (s !! "step") = true
  \/ (s !! "phone" = Some who
      /\ (s !! "step" = Some "ASK_NAME"
          \/ (s !! "step" = Some "ASK_EMAIL" /\ is_Some (s !! "name"))
          \/ (s !! "step" = Some "ASK_CITY"
              /\ is_Some (s !! "name") /\ is_Some (s !! "email"))
          \/ (s !! "step" = Some "ASK_CODE"
              /\ is_Some (s !! "name") /\ is_Some (s !! "email")
              /\ is_Some (s !! "city")))).

Definition pg_up (e : env) : Prop := forall n, pg_fault e n = false.

(** The ledger after [who] has claimed code [c] at time [t]. *)
Definition claimed_by (ph nm em ct : option string) (c : string) (t : nat)
    (tbl : list Codes.row) : list Codes.row :=
  (fun r => if Codes.is_active_code c r
            then Codes.claim_row ph nm em ct t r else r) <$> tbl.

(** An extractor that finds every input valid. *)
Definition always_valid (e : env) : Prop :=
  forall n txt step s,
    exists v, openai_chat e n txt step s = Some v /\ is_valid v = true.


(** What the extractor was asked and what it answered, in order. *)
Definition chats (evs : list event) : list (string * string * option validation) :=
  omap (fun ev => match ev with
                  | EvChat txt step _ res => Some (txt, step, res)
                  | _ => None
                  end) evs.

(** ** The admin endpoint that selects winners *)

Module Admin.

(** The two statements of [POST /api/update-winners]. *)
Inductive stmt :=
| ResetWinners
    (* UPDATE codes SET is_winner = false WHERE status = 'inactive' *)
| SetWinners (ids : list string).
    (* UPDATE codes SET is_winner = true
       WHERE code_id IN (...) AND status = 'inactive'
       RETURNING code_id, "name", phone_number, city *)

Definition is_inactive (r : Codes.row) : bool :=
  bool_decide (Codes.status r = "inactive").

Definition set_winner (b : bool) (r : Codes.row) : Codes.row :=
  {| Codes.code := Codes.code r; Codes.code_id := Codes.code_id r;
     Codes.status := Codes.status r;
     Codes.phone_number := Codes.phone_number r; Codes.name := Codes.name r;
     Codes.email := Codes.email r; Codes.city := Codes.city r;
     Codes.created_at := Codes.created_at r; Codes.is_winner := b |}.

(** [WHERE code_id IN (...) AND status = 'inactive'] *)
Definition is_listed (ids : list string) (r : Codes.row) : bool :=
  bool_decide (Codes.code_id r ∈ ids) && is_inactive r.

(** The rows a statement returns and the table it leaves. *)
Definition run (q : stmt) (tbl : list Codes.row)
    : list Codes.row * list Codes.row :=
  match q with
  | ResetWinners =>
      ([], (fun r => if is_inactive r then set_winner false r else r) <$> tbl)
  | SetWinners ids =>
      (set_winner true <$> filter (fun r => is_listed ids r = true) tbl,
       (fun r => if is_listed ids r then set_winner true r else r) <$> tbl)
  end.

(** A winner as the response lists it. *)
Record winner := Winner {
  id : string;
  winner_name : string;
  winner_phone : string;
  winner_city : string
}.

(** [{ id: row.code_id, name: row.name ? row.name.trim() : "N/A",
       phone: row.phone_number || "N/A", city: row.city || "N/A" }] *)
Definition view (r : Codes.row) : winner :=
  {| id := Codes.code_id r;
     winner_name := match Codes.name r with
                    | Some (String c s) => trim (String c s)
                    | _ => "N/A"
                    end;
     winner_phone := or_else (Codes.phone_number r) "N/A";
     winner_city := or_else (Codes.city r) "N/A" |}.

Inductive response :=
| BadRequest (error : string)                          (* 400 *)
| ServerError (error : string)                         (* 500 *)
| Updated (updatedCount : nat) (winners : list winner). (* 200, success *)

(** The handler's monad: as [M], with the statements of this endpoint as
    events. *)
Definition Q (A : Type) : Type :=
  world -> outcome A * world * list (stmt * option nat).

Definition qret {A} (a : A) : Q A := fun w => (Return a, w, []).

Definition qbind {A B} (m : Q A) (k : A -> Q B) : Q B :=
  fun w =>
    match m w with
    | (Return a, w1, t1) =>
        match k a w1 with (r, w2, t2) => (r, w2, t1 ++ t2) end
    | (Throw err, w1, t1) => (Throw err, w1, t1)
    end.

Definition qtry {A} (m : Q A) (h : error -> Q A) : Q A :=
  fun w =>
    match m w with
    | (Return a, w1, t1) => (Return a, w1, t1)
    | (Throw err, w1, t1) =>
        match h err w1 with (r, w2, t2) => (r, w2, t1 ++ t2) end
    end.

(** [pool.query] for the statements of this endpoint. *)
Definition query (e : env) (q : stmt) : Q (list Codes.row) :=
  fun w =>
    let tbl := pg_concurrent e (tick w) (codes_table w) in
    if pg_fault e (tick w)
    then (Throw PgError, next_tick (set_codes_table tbl w), [(q, None)])
    else
      let res := run q tbl in
      (Return (fst res), next_tick (set_codes_table (snd res) w),
       [(q, Some (length (fst res)))]).

(** [app.post("/api/update-winners", ...)]; [winnerIds] is [None] when the
    body has no such field or it is not an array. *)
Definition update_winners (e : env) (winnerIds : option (list string))
    : Q response :=
  qtry
    (match winnerIds with
     | None => qret (BadRequest "Winner IDs are required")
     | Some [] => qret (BadRequest "Winner IDs are required")
     | Some ids =>
         qbind (query e ResetWinners) (fun _ =>
         qbind (query e (SetWinners ids)) (fun updateResult =>
         qret (Updated (length updateResult) (view <$> updateResult))))
     end)
    (fun error => qret (ServerError "Failed to update winners")).

(** What the first statement does to a row. *)
Definition reset (r : Codes.row) : Codes.row :=
  if is_inactive r then set_winner false r else r.

(** The table after a successful selection of [ids]. *)
Definition selected (ids : list string) (r : Codes.row) : Codes.row :=
  if is_inactive r
  then set_winner (bool_decide (Codes.code_id r ∈ ids)) r
  else r.

End Admin.

(** A table with two finished registrations, one of them a winner. *)
Definition winners_table : list Codes.row :=
  [fresh_code "ABC123" "id-1";
   Admin.set_winner true (used_code "OLD111" "id-2" "asha@example.com");
   used_code "OLD222" "id-3" "ravi@example.com"].

(** PostgreSQL fails from the second call on. *)
Definition env_pg_second_fails : env :=
  {| openai_chat := echo_chat; redis_fault := fun _ => false;
     pg_fault := fun n => 1 <=? n; axios_fault := fun _ => false;
     pg_concurrent := fun _ tbl => tbl |}.

(** ** The legacy email check *)

Module Legacy.

(** A JavaScript string: its UTF-16 code units. *)
Abbreviation js_string := (list N).

(** Regular expressions over code units, as far as the literal
    [/^[^\s@]+@[^\s@]+\.[^\s@]+$/] needs them (and what its derivatives
    need on top). *)
Inductive re :=
| Void
| Eps
| Cls (p : N -> bool)
| Cat (a b : re)
| Alt (a b : re)
| Star (a : re).

Definition Chr (c : N) : re := Cls (N.eqb c).
Definition Plus (a : re) : re := Cat a (Star a).

Fixpoint nullable (r : re) : bool :=
  match r with
  | Void => false
  | Eps => true
  | Cls _ => false
  | Cat a b => nullable a && nullable b
  | Alt a b => nullable a || nullable b
  | Star _ => true
  end.

Fixpoint deriv (c : N) (r : re) : re :=
  match r with
  | Void => Void
  | Eps => Void
  | Cls p => if p c then Eps else Void
  | Cat a b =>
      if nullable a then Alt (Cat (deriv c a) b) (deriv c b)
      else Cat (deriv c a) b
  | Alt a b => Alt (deriv c a) (deriv c b)
  | Star a => Cat (deriv c a) (Star a)
  end.

(** [r.test(s)] for a pattern anchored at both ends. *)
Fixpoint test (r : re) (s : js_string) : bool :=
  match s with
  | [] => nullable r
  | c :: s' => test (deriv c r) s'
  end.

(** [\s]: WhiteSpace and LineTerminator of ECMAScript. *)
Definition is_js_space (c : N) : bool :=
  ((9 <=? c) && (c <=? 13) || (c =? 32) || (c =? 160) || (c =? 5760)
   || (8192 <=? c) && (c <=? 8202) || (c =? 8232) || (c =? 8233)
   || (c =? 8239) || (c =? 8287) || (c =? 12288) || (c =? 65279))%N.

Definition at_sign : N := 64.
Definition dot : N := 46.

(** [[^\s@]] *)
Definition plain (c : N) : bool := negb (is_js_space c || (c =? at_sign)%N).

Definition email_re : re :=
  Cat (Plus (Cls plain))
    (Cat (Chr at_sign)
       (Cat (Plus (Cls plain)) (Cat (Chr dot) (Plus (Cls plain))))).

(** [validateEmail(email)] *)
Definition validateEmail (email : js_string) : bool := test email_re email.

(** The strings a pattern denotes. *)
Inductive lang : re -> js_string -> Prop :=
| lang_Eps : lang Eps []
| lang_Cls p c : p c = true -> lang (Cls p) [c]
| lang_Cat a b s1 s2 : lang a s1 -> lang b s2 -> lang (Cat a b) (s1 ++ s2)
| lang_Alt_l a b s : lang a s -> lang (Alt a b) s
| lang_Alt_r a b s : lang b s -> lang (Alt a b) s
| lang_Star_nil a : lang (Star a) []
| lang_Star_cons a s1 s2 :
    lang a s1 -> lang (Star a) s2 -> lang (Star a) (s1 ++ s2).

(** Code units of a string of one-byte characters. *)
Fixpoint units (s : string) : js_string :=
  match s with
  | EmptyString => []
  | String c s' => Ascii.N_of_ascii c :: units s'
  end.

End Legacy.

(** * Properties *)

Lemma bind_Return {A B} (m : M A) (k : A -> M B) w a w1 t1 :
  m w = (Return a, w1, t1) ->
  bind m k w = (let '(r, w2, t2) := k a w1 in (r, w2, t1 ++ t2)).
Proof. intros H. unfold bind. rewrite H. reflexivity. Qed.

Lemma bind_Throw {A B} (m : M A) (k : A -> M B) w err w1 t1 :
  m w = (Throw err, w1, t1) ->
  bind m k w = (Throw err, w1, t1).
Proof. intros H. unfold bind. rewrite H. reflexivity. Qed.

Lemma try_catch_Return {A} (m : M A) h w a w1 t1 :
  m w = (Return a, w1, t1) ->
  try_catch m h w = (Return a, w1, t1).
Proof. intros H. unfold try_catch. rewrite H. reflexivity. Qed.

Section Calls.

Variable e : env.
Hypothesis He : healthy e.

Lemma redis_call_ok c w :
  redis_call e c w = (Return tt, next_tick (redis_apply c w), [EvRedis c true]).
Proof. unfold redis_call. destruct (He (tick w)) as (-> & _). reflexivity. Qed.

Lemma hGetAll_ok key w :
  hGetAll e key w
  = (Return (session_of w key), next_tick (purge key w),
     [EvRedis (HGetAll key) true]).
Proof. unfold hGetAll. rewrite redis_call_ok. reflexivity. Qed.

Lemma sendText_ok to body w :
  sendText e to body w = (Return tt, next_tick w, [EvSend to body true]).
Proof. unfold sendText. destruct (He (tick w)) as (_ & _ & ->). reflexivity. Qed.

Lemma pool_query_ok q w :
  pool_query e q w
  = (let res := exec q (now w) (pg_concurrent e (tick w) (codes_table w)) in
     (Return (fst res), next_tick (set_codes_table (snd res) w),
      [EvQuery q (Some (length (fst res)))])).
Proof. unfold pool_query. destruct (He (tick w)) as (_ & -> & _). reflexivity. Qed.

End Calls.

Lemma validateWithOpenAI_eq e userInput currentStep sessionData w :
  validateWithOpenAI e userInput currentStep sessionData w
  = (Return (verdict (openai_chat e (tick w) userInput currentStep sessionData)),
     next_tick w,
     [EvChat userInput currentStep sessionData
        (openai_chat e (tick w) userInput currentStep sessionData)]).
Proof. reflexivity. Qed.

(** ** The handler, branch by branch *)

Lemma tick_purge k w : tick (purge k w) = tick w.
Proof. unfold purge. destruct (expired w k); reflexivity. Qed.

Lemma tick_next_tick w : tick (next_tick w) = S (tick w).
Proof. reflexivity. Qed.

Lemma now_next_tick w : now (next_tick w) = now w.
Proof. reflexivity. Qed.

Lemma codes_table_next_tick w : codes_table (next_tick w) = codes_table w.
Proof. reflexivity. Qed.

Lemma now_set_codes_table tbl w : now (set_codes_table tbl w) = now w.
Proof. reflexivity. Qed.

Lemma tick_set_codes_table tbl w : tick (set_codes_table tbl w) = tick w.
Proof. reflexivity. Qed.

Lemma codes_table_set_codes_table tbl w :
  codes_table (set_codes_table tbl w) = tbl.
Proof. reflexivity. Qed.

Lemma now_purge k w : now (purge k w) = now w.
Proof. unfold purge. destruct (expired w k); reflexivity. Qed.

Lemma codes_table_purge k w : codes_table (purge k w) = codes_table w.
Proof. unfold purge. destruct (expired w k); reflexivity. Qed.

Lemma tick_redis_apply c w : tick (redis_apply c w) = tick w.
Proof.
  destruct c; cbn [redis_apply]; cbv zeta; repeat case_match;
    cbn [set_redis tick]; rewrite ?tick_purge; reflexivity.
Qed.

Lemma now_redis_apply c w : now (redis_apply c w) = now w.
Proof.
  destruct c; cbn [redis_apply]; cbv zeta; repeat case_match;
    cbn [set_redis now]; rewrite ?now_purge; reflexivity.
Qed.

Lemma codes_table_redis_apply c w :
  codes_table (redis_apply c w) = codes_table w.
Proof.
  destruct c; cbn [redis_apply]; cbv zeta; repeat case_match;
    cbn [set_redis codes_table]; rewrite ?codes_table_purge; reflexivity.
Qed.

(** The claim as [updateCodeInDatabase] issues it. *)
Lemma updateCodeInDatabase_eq e ph nm em ct c w :
  updateCodeInDatabase e ph nm em ct c w
  = (let tbl := pg_concurrent e (tick w) (codes_table w) in
     let q := UpdateClaim ph nm em ct c in
     if pg_fault e (tick w)
     then (Throw PgError, next_tick (set_codes_table tbl w), [EvQuery q None])
     else (Return (0 <? length (fst (exec q (now w) tbl))),
           next_tick (set_codes_table (snd (exec q (now w) tbl)) w),
           [EvQuery q (Some (length (fst (exec q (now w) tbl))))])).
Proof.
  unfold updateCodeInDatabase, try_catch, bind, pool_query, throw, ret.
  cbv zeta. destruct (pg_fault e (tick w)); [reflexivity|].
  destruct (0 <? _); reflexivity.
Qed.

Lemma updateCodeInDatabase_ok e ph nm em ct c w :
  healthy e ->
  updateCodeInDatabase e ph nm em ct c w
  = (let out := exec (UpdateClaim ph nm em ct c) (now w)
                  (pg_concurrent e (tick w) (codes_table w)) in
     (Return (0 <? length (fst out)),
      next_tick (set_codes_table (snd out) w),
      [EvQuery (UpdateClaim ph nm em ct c) (Some (length (fst out)))])).
Proof.
  intros He. rewrite updateCodeInDatabase_eq. cbv zeta.
  destruct (He (tick w)) as (_ & -> & _). reflexivity.
Qed.

Ltac step_with L :=
  erewrite bind_Return by (apply L; assumption); cbv beta iota zeta.

Ltac steps :=
  repeat first
    [ step_with hGetAll_ok
    | step_with sendText_ok
    | step_with redis_call_ok
    | step_with pool_query_ok
    | erewrite bind_Return by apply validateWithOpenAI_eq; cbv beta iota zeta ].

Create Rewrite HintDb world.

#[local] Hint Rewrite tick_next_tick tick_purge now_next_tick now_purge
  now_set_codes_table codes_table_next_tick codes_table_purge
  tick_set_codes_table codes_table_set_codes_table
  tick_redis_apply now_redis_apply codes_table_redis_apply : world.

Ltac norm_world := cbn [exec fst snd]; autorewrite with world.

Ltac pick_step Hstep :=
  rewrite Hstep; cbn [falsy];
  rewrite ?bool_decide_eq_false_2 by congruence;
  rewrite ?bool_decide_eq_true_2 by reflexivity;
  cbv iota.

Section Branches.

Variable e : env.
Hypothesis He : healthy e.
Variables (body : wa_body) (msg : wa_message) (w : world).
Hypothesis Hmsg : first_message body = Some msg.

Lemma post_welcome :
  falsy (session_of w (key_of msg) !! "step") = true ->
  webhook_post e body w
  = (Return 200,
     next_tick (redis_apply (Expire (key_of msg) (30 * 60))
       (next_tick (redis_apply
          (HSet (key_of msg) {[ "step" := "ASK_NAME"; "phone" := from msg ]})
          (next_tick (next_tick (purge (key_of msg) w)))))),
     [EvRedis (HGetAll (key_of msg)) true;
      EvSend (from msg) welcome_message true;
      EvRedis (HSet (key_of msg)
                 {[ "step" := "ASK_NAME"; "phone" := from msg ]}) true;
      EvRedis (Expire (key_of msg) (30 * 60)) true]).
Proof.
  intros Hstep. unfold webhook_post. rewrite Hmsg. cbv beta iota zeta.
  fold (key_of msg). step_with hGetAll_ok. rewrite Hstep.
  unfold hSet, expire. steps. reflexivity.
Qed.

(** ASK_NAME and ASK_CITY share their shape: the field they store and the
    step they move to differ. *)
Lemma post_field (step next field : string) :
  (step = "ASK_NAME" /\ next = "ASK_EMAIL" /\ field = "name")
  \/ (step = "ASK_CITY" /\ next = "ASK_CODE" /\ field = "city") ->
  session_of w (key_of msg) !! "step" = Some step ->
  webhook_post e body w
  = (let res := reply_at e w msg step in
     let store := HSet (key_of msg)
                    {[ "step" := next; field := value (verdict res) ]} in
     let w1 := next_tick (next_tick (next_tick (purge (key_of msg) w))) in
     let evs := [EvRedis (HGetAll (key_of msg)) true;
                 EvChat (text_of msg) step (session_of w (key_of msg)) res;
                 EvSend (from msg) (message (verdict res)) true] in
     if is_valid (verdict res)
     then (Return 200, next_tick (redis_apply store w1),
           evs ++ [EvRedis store true])
     else (Return 200, w1, evs)).
Proof.
  intros Hcase Hstep. unfold webhook_post. rewrite Hmsg. cbv beta iota zeta.
  fold (key_of msg) (text_of msg). step_with hGetAll_ok.
  destruct Hcase as [(-> & -> & ->)|(-> & -> & ->)]; pick_step Hstep;
    steps; rewrite tick_next_tick, tick_purge; unfold reply_at;
    unfold hSet;
    match goal with |- context [is_valid ?v] => destruct (is_valid v) end;
    steps; reflexivity.
Qed.


Lemma post_ASK_EMAIL :
  session_of w (key_of msg) !! "step" = Some "ASK_EMAIL" ->
  webhook_post e body w
  = (let res := reply_at e w msg "ASK_EMAIL" in
     let v := verdict res in
     let w1 := next_tick (next_tick (purge (key_of msg) w)) in
     let pre := [EvRedis (HGetAll (key_of msg)) true;
                 EvChat (text_of msg) "ASK_EMAIL"
                   (session_of w (key_of msg)) res] in
     if is_valid v then
       let tbl := table_seen e 2 w in
       let rows := filter (fun r => Codes.has_email (value v) r = true) tbl in
       let w2 := next_tick (set_codes_table tbl w1) in
       let q := EvQuery (SelectByEmail (value v)) (Some (length rows)) in
       if 0 <? length rows then
         (Return 200, next_tick w2,
          pre ++ [q; EvSend (from msg) already_registered_message true])
       else
         let store := HSet (key_of msg)
                        {[ "step" := "ASK_CITY"; "email" := value v ]} in
         (Return 200, next_tick (redis_apply store (next_tick w2)),
          pre ++ [q; EvSend (from msg) (message v) true; EvRedis store true])
     else
       (Return 200, next_tick w1,
        pre ++ [EvSend (from msg) (message v) true])).
Proof.
  intros Hstep. unfold webhook_post. rewrite Hmsg. cbv beta iota zeta.
  fold (key_of msg) (text_of msg). step_with hGetAll_ok. pick_step Hstep.
  steps. rewrite tick_next_tick, tick_purge. unfold reply_at, table_seen.
  cbn [Nat.add].
  destruct (is_valid _) eqn:Hv; cbn [negb]; cbv iota.
  - destruct (0 <? length (filter _ _)) eqn:Hrows.
    + erewrite bind_Return
        by (apply try_catch_Return; steps; norm_world; rewrite Hrows;
            rewrite (sendText_ok e He); reflexivity).
      reflexivity.
    + erewrite bind_Return
        by (apply try_catch_Return; steps; norm_world; rewrite Hrows;
            steps; unfold hSet; rewrite (redis_call_ok e He); reflexivity).
      reflexivity.
  - steps. reflexivity.
Qed.


Lemma post_ASK_CODE :
  session_of w (key_of msg) !! "step" = Some "ASK_CODE" ->
  webhook_post e body w
  = (let session := session_of w (key_of msg) in
     let res := reply_at e w msg "ASK_CODE" in
     let v := verdict res in
     let w1 := next_tick (next_tick (purge (key_of msg) w)) in
     let pre := [EvRedis (HGetAll (key_of msg)) true;
                 EvChat (text_of msg) "ASK_CODE" session res] in
     if is_valid v then
       let tbl := table_seen e 2 w in
       let found :=
         filter (fun r => Codes.is_active_code (value v) r = true) tbl in
       let w2 := next_tick (set_codes_table tbl w1) in
       let q := EvQuery (SelectActiveByCode (value v)) (Some (length found)) in
       if 0 <? length found then
         let store := HSet (key_of msg) {[ "code" := value v ]} in
         let w3 := next_tick (redis_apply store w2) in
         let upd := UpdateClaim
                      (Some (or_else (session !! "phone") (from msg)))
                      (session !! "name") (session !! "email")
                      (session !! "city") (value v) in
         let out := exec upd (now w) (pg_concurrent e (4 + tick w) tbl) in
         let w4 := next_tick (set_codes_table (snd out) w3) in
         let u := EvQuery upd (Some (length (fst out))) in
         if 0 <? length (fst out) then
           (Return 200,
            next_tick (next_tick (redis_apply (Del (key_of msg)) w4)),
            pre ++ [q; EvRedis store true; u;
                    EvRedis (Del (key_of msg)) true;
                    EvSend (from msg) registration_complete_message true])
         else
           (Return 200, next_tick w4,
            pre ++ [q; EvRedis store true; u;
                    EvSend (from msg) registration_failed_message true])
       else
         (Return 200, next_tick w2,
          pre ++ [q; EvSend (from msg) invalid_code_message true])
     else
       (Return 200, next_tick w1,
        pre ++ [EvSend (from msg) (message v) true])).
Proof.
  intros Hstep. unfold webhook_post. rewrite Hmsg. cbv beta iota zeta.
  fold (key_of msg) (text_of msg). step_with hGetAll_ok. pick_step Hstep.
  steps. rewrite tick_next_tick, tick_purge. unfold reply_at, table_seen.
  cbn [Nat.add exec fst snd].
  destruct (is_valid _) eqn:Hv; cbn [negb]; cbv iota.
  - destruct (0 <? length (filter _ (pg_concurrent e (S (S (tick w))) _)))
      eqn:Hfound.
    + destruct (0 <? length (_ <$> _)) eqn:Hupd.
      * erewrite bind_Return
          by (apply try_catch_Return; steps; norm_world; rewrite Hfound;
              unfold hSet; steps;
              erewrite bind_Return
                by (rewrite updateCodeInDatabase_ok by assumption; reflexivity);
              cbv beta iota zeta; norm_world; rewrite Hupd;
              unfold del; steps; rewrite (sendText_ok e He); reflexivity).
        reflexivity.
      * erewrite bind_Return
          by (apply try_catch_Return; steps; norm_world; rewrite Hfound;
              unfold hSet; steps;
              erewrite bind_Return
                by (rewrite updateCodeInDatabase_ok by assumption; reflexivity);
              cbv beta iota zeta; norm_world; rewrite Hupd;
              rewrite (sendText_ok e He); reflexivity).
        reflexivity.
    + erewrite bind_Return
        by (apply try_catch_Return; steps; norm_world; rewrite Hfound;
            rewrite (sendText_ok e He); reflexivity).
      reflexivity.
  - steps. reflexivity.
Qed.

End Branches.

(** ** The claim statement *)

Lemma claim_row_not_active ph nm em ct t c r :
  Codes.is_active_code c (Codes.claim_row ph nm em ct t r) = false.
Proof.
  unfold Codes.is_active_code, Codes.claim_row. cbn.
  rewrite (bool_decide_eq_false_2 ("inactive" = "active")) by discriminate.
  apply andb_false_r.
Qed.

(** Once the statement has run, no row with that code is active. *)
Lemma claim_leaves_none_active ph nm em ct c t tbl :
  Forall (fun r => Codes.is_active_code c r = false)
         (snd (exec (UpdateClaim ph nm em ct c) t tbl)).
Proof.
  cbn [exec snd]. apply Forall_fmap, Forall_forall. intros r _. cbn.
  destruct (Codes.is_active_code c r) eqn:E; [|exact E].
  apply claim_row_not_active.
Qed.

(** The statement never turns a row active, whatever code it is about. *)
Lemma claim_keeps_none_active ph nm em ct c c' t tbl :
  Forall (fun r => Codes.is_active_code c' r = false) tbl ->
  Forall (fun r => Codes.is_active_code c' r = false)
         (snd (exec (UpdateClaim ph nm em ct c) t tbl)).
Proof.
  intros H. cbn [exec snd]. apply Forall_fmap. eapply Forall_impl; [exact H|].
  intros r Hr. cbn. destruct (Codes.is_active_code c r); [|exact Hr].
  apply claim_row_not_active.
Qed.

Lemma filter_nil_of_none_active c (tbl : list Codes.row) :
  Forall (fun r => Codes.is_active_code c r = false) tbl ->
  filter (fun r => Codes.is_active_code c r = true) tbl = [].
Proof.
  induction 1 as [|r tbl Hr _ IH]; [reflexivity|].
  rewrite filter_cons. rewrite decide_False by (rewrite Hr; discriminate).
  exact IH.
Qed.

(** What the one statement of [updateCodeInDatabase] does, whether the
    store answers or not. *)
Lemma claim_statement_outcome e ph nm em ct c w :
  let tbl := pg_concurrent e (tick w) (codes_table w) in
  let hit := filter (fun r => Codes.is_active_code c r = true) tbl in
  exists r w',
    updateCodeInDatabase e ph nm em ct c w
    = (r, w', [EvQuery (UpdateClaim ph nm em ct c)
                 (if pg_fault e (tick w) then None else Some (length hit))])
    /\ redis w' = redis w /\ deadline w' = deadline w
    /\ if pg_fault e (tick w)
       then r = Throw PgError /\ codes_table w' = tbl
       else (r = Return true /\ 1 <= length hit
             \/ r = Return false /\ length hit = 0)
            /\ codes_table w'
               = (fun r => if Codes.is_active_code c r
                           then {| Codes.code := Codes.code r;
                                   Codes.code_id := Codes.code_id r;
                                   Codes.status := "inactive";
                                   Codes.phone_number := ph;
                                   Codes.name := nm;
                                   Codes.email := em;
                                   Codes.city := ct;
                                   Codes.created_at := Some (now w);
                                   Codes.is_winner := Codes.is_winner r |}
                           else r) <$> tbl
            /\ Forall (fun r => Codes.is_active_code c r = false)
                      (codes_table w').
Proof.
  cbv zeta. rewrite updateCodeInDatabase_eq. cbv zeta.
  pose proof (claim_leaves_none_active ph nm em ct c (now w)
                (pg_concurrent e (tick w) (codes_table w))) as Hnone.
  cbn [exec fst snd] in *. rewrite !length_fmap.
  destruct (pg_fault e (tick w)).
  - eexists _, _. repeat split; reflexivity.
  - eexists _, _. split; [reflexivity|].
    split; [reflexivity|]. split; [reflexivity|]. split; [|split].
    + destruct (length _) as [|n]; [right|left]; split;
        try reflexivity; lia.
    + reflexivity.
    + exact Hnone.
Qed.

(** A claim turns no row active, so it cannot add to the active rows of any
    code. *)
Lemma claim_active_le ph nm em ct c c' t (tbl : list Codes.row) :
  length (filter (fun r => Codes.is_active_code c' r = true)
            (snd (exec (UpdateClaim ph nm em ct c) t tbl)))
  <= length (filter (fun r => Codes.is_active_code c' r = true) tbl).
Proof.
  cbn [exec snd]. induction tbl as [|r tbl IH]; [reflexivity|].
  rewrite fmap_cons, !filter_cons.
  destruct (Codes.is_active_code c r) eqn:Ea.
  - rewrite decide_False
      by (rewrite claim_row_not_active; discriminate).
    destruct (decide (Codes.is_active_code c' r = true)); cbn [length]; lia.
  - destruct (decide (Codes.is_active_code c' r = true)); cbn [length]; lia.
Qed.

Lemma claim_keeps_unique ph nm em ct c t tbl :
  active_codes_unique tbl ->
  active_codes_unique (snd (exec (UpdateClaim ph nm em ct c) t tbl)).
Proof.
  intros Hu c'. pose proof (claim_active_le ph nm em ct c c' t tbl).
  pose proof (Hu c'). lia.
Qed.

(** C1: [updateCodeInDatabase] issues exactly one statement, the
    conditional update of the rows whose code matches and whose status is
    'active', setting the registrant's columns, status 'inactive' and the
    current time.  On a ledger in which a code is carried by at most one
    active row, it returns true iff exactly one row was updated and false
    iff none matched (the code is absent or already inactive).  When the
    store fails the error is raised to the caller, which is neither of the
    two boolean results, and the table is as the statement found it.  The
    session store is not touched, no row with that code is left active, and
    the ledger's invariant still holds afterwards. *)
Theorem C1_claim_true_iff_one_row e ph nm em ct c w :
  let tbl := pg_concurrent e (tick w) (codes_table w) in
  let hit := filter (fun r => Codes.is_active_code c r = true) tbl in
  active_codes_unique tbl ->
  exists r w',
    updateCodeInDatabase e ph nm em ct c w
    = (r, w', [EvQuery (UpdateClaim ph nm em ct c)
                 (if pg_fault e (tick w) then None else Some (length hit))])
    /\ redis w' = redis w /\ deadline w' = deadline w
    /\ if pg_fault e (tick w)
       then r = Throw PgError /\ codes_table w' = tbl
       else (r = Return true /\ length hit = 1
             \/ r = Return false /\ length hit = 0)
            /\ codes_table w'
               = (fun r => if Codes.is_active_code c r
                           then {| Codes.code := Codes.code r;
                                   Codes.code_id := Codes.code_id r;
                                   Codes.status := "inactive";
                                   Codes.phone_number := ph;
                                   Codes.name := nm;
                                   Codes.email := em;
                                   Codes.city := ct;
                                   Codes.created_at := Some (now w);
                                   Codes.is_winner := Codes.is_winner r |}
                           else r) <$> tbl
            /\ Forall (fun r => Codes.is_active_code c r = false)
                      (codes_table w')
            /\ active_codes_unique (codes_table w').
Proof.
  cbv zeta. intros Hu.
  destruct (claim_statement_outcome e ph nm em ct c w)
    as (r & w' & Heq & Hr & Hd & Hrest).
  exists r, w'. split; [exact Heq|]. split; [exact Hr|]. split; [exact Hd|].
  destruct (pg_fault e (tick w)); [exact Hrest|].
  destruct Hrest as (Hres & Ht & Hnone).
  split; [|split; [exact Ht|split; [exact Hnone|]]].
  - destruct Hres as [[-> Hl]|[-> Hl]]; [left|right]; split;
      try reflexivity; [|exact Hl].
    pose proof (Hu c). lia.
  - rewrite Ht.
    apply (claim_keeps_unique ph nm em ct c (now w)
             (pg_concurrent e (tick w) (codes_table w)) Hu).
Qed.

Lemma C1_claim_true_iff_one_row_witness :
  exists w',
    updateCodeInDatabase env_ok (Some sender) (Some "John Doe")
      (Some "john@example.com") (Some "Mumbai") "ABC123"
      (world_with None sample_table)
    = (Return true, w',
       [EvQuery (UpdateClaim (Some sender) (Some "John Doe")
                   (Some "john@example.com") (Some "Mumbai") "ABC123")
          (Some 1)])
    /\ Forall (fun r => Codes.is_active_code "ABC123" r = false)
              (codes_table w').
Proof.
  destruct (C1_claim_true_iff_one_row env_ok (Some sender) (Some "John Doe")
              (Some "john@example.com") (Some "Mumbai") "ABC123"
              (world_with None sample_table))
    as (r & w' & Heq & _ & _ & Hres & _ & Hnone & _).
  - change (active_codes_unique sample_table). intros c. unfold sample_table.
    rewrite filter_cons.
    assert (filter (fun r => Codes.is_active_code c r = true)
              [used_code "OLD111" "id-2" "asha@example.com"] = []) as ->.
    { rewrite filter_cons, decide_False; [reflexivity|].
      unfold Codes.is_active_code.
      rewrite (bool_decide_eq_false_2
                 (Codes.status (used_code "OLD111" "id-2" "asha@example.com")
                  = "active")) by discriminate.
      rewrite andb_false_r. discriminate. }
    destruct (decide _); cbn [length]; lia.
  - exists w'. split; [|exact Hnone].
    destruct Hres as [[-> _]|[_ Hl]]; [exact Heq|].
    vm_compute in Hl. discriminate Hl.
Defined.

(** ** Events without a message *)

(** C7: an event that carries no message is answered with 200 and nothing
    else happens: no Redis command, no statement, no call of the model and
    no outbound text is issued, and the world is the one it started in. *)
Theorem C7_no_message_no_effect e body w :
  first_message body = None ->
  webhook_post e body w = (Return 200, w, []).
Proof. intros H. unfold webhook_post. rewrite H. reflexivity. Qed.

Lemma C7_no_message_no_effect_witness :
  first_message status_event = None
  /\ webhook_post env_pg_down status_event (world_with (Some at_code) sample_table)
     = (Return 200, world_with (Some at_code) sample_table, []).
Proof.
  split; [reflexivity|].
  apply (C7_no_message_no_effect env_pg_down status_event
           (world_with (Some at_code) sample_table)).
  reflexivity.
Defined.

(** ** The extractor adapter *)

(** C8: [validateWithOpenAI] always returns a verdict and never raises; when
    the call of the model or the parsing of its answer raised, the verdict
    is invalid, its value is empty and its message is the generic request
    to try again.  The adapter changes neither store. *)
Theorem C8_extractor_failure_is_a_verdict e userInput currentStep sessionData w :
  (exists v w',
     validateWithOpenAI e userInput currentStep sessionData w
     = (Return v, w',
        [EvChat userInput currentStep sessionData
           (openai_chat e (tick w) userInput currentStep sessionData)])
     /\ redis w' = redis w /\ deadline w' = deadline w
     /\ codes_table w' = codes_table w)
  /\ (openai_chat e (tick w) userInput currentStep sessionData = None ->
      fst (fst (validateWithOpenAI e userInput currentStep sessionData w))
      = Return {| message := retry_message; is_valid := false; value := EmptyString |}).
Proof.
  split.
  - eexists _, _. rewrite validateWithOpenAI_eq. repeat split; reflexivity.
  - intros H. rewrite validateWithOpenAI_eq. cbn [fst]. rewrite H. reflexivity.
Qed.

Lemma C8_extractor_failure_is_a_verdict_witness :
  fst (fst (validateWithOpenAI env_model_down "John Doe" "ASK_NAME" at_name
              (world_with (Some at_name) sample_table)))
  = Return {| message := retry_message; is_valid := false; value := EmptyString |}.
Proof.
  apply (C8_extractor_failure_is_a_verdict env_model_down "John Doe" "ASK_NAME"
           at_name (world_with (Some at_name) sample_table)).
  reflexivity.
Defined.

(** ** The session hash through the Redis commands *)

Lemma expired_purge k w : expired (purge k w) k = false.
Proof.
  unfold purge. destruct (expired w k) eqn:E; [|exact E].
  unfold expired. cbn [set_redis deadline]. rewrite lookup_delete_eq.
  reflexivity.
Qed.

Lemma purge_not_expired k w : expired w k = false -> purge k w = w.
Proof. intros E. unfold purge. rewrite E. reflexivity. Qed.

Lemma purge_purge k w : purge k (purge k w) = purge k w.
Proof. apply purge_not_expired, expired_purge. Qed.

Lemma session_of_purge k w : session_of (purge k w) k = session_of w k.
Proof. unfold session_of. rewrite purge_purge. reflexivity. Qed.

Lemma expired_next_tick k w : expired (next_tick w) k = expired w k.
Proof. reflexivity. Qed.

Lemma session_of_next_tick k w : session_of (next_tick w) k = session_of w k.
Proof.
  unfold session_of, purge. rewrite expired_next_tick.
  destruct (expired w k); reflexivity.
Qed.

Lemma session_of_set_codes_table tbl k w :
  session_of (set_codes_table tbl w) k = session_of w k.
Proof.
  unfold session_of, purge.
  change (expired (set_codes_table tbl w) k) with (expired w k).
  destruct (expired w k); reflexivity.
Qed.

(** A hash with a step is there and has not run out. *)
Lemma step_not_expired w k s :
  session_of w k !! "step" = Some s -> expired w k = false.
Proof.
  unfold session_of, purge. destruct (expired w k); [|reflexivity].
  cbn [set_redis redis]. rewrite lookup_delete_eq. cbn.
  rewrite lookup_empty. discriminate.
Qed.

Lemma session_of_HSet k fields w :
  session_of (redis_apply (HSet k fields) w) k = fields ∪ session_of w k.
Proof.
  cbn [redis_apply]. cbv zeta. unfold session_of at 1.
  rewrite purge_not_expired.
  - cbn [set_redis redis]. rewrite lookup_insert_eq. reflexivity.
  - pose proof (expired_purge k w) as E. unfold expired in *.
    cbn [set_redis deadline now]. exact E.
Qed.

Lemma deadline_HSet k fields w :
  deadline (redis_apply (HSet k fields) w) = deadline (purge k w).
Proof. reflexivity. Qed.

Lemma session_of_Del k w : session_of (redis_apply (Del k) w) k = ∅.
Proof.
  cbn [redis_apply]. unfold session_of, purge, expired.
  cbn [set_redis deadline redis now]. rewrite lookup_delete_eq.
  cbn [set_redis redis]. rewrite lookup_delete_eq. reflexivity.
Qed.

Lemma redis_Del k w : redis (redis_apply (Del k) w) !! k = None.
Proof. cbn [redis_apply set_redis redis]. apply lookup_delete_eq. Qed.

(** Setting a positive time to live on a key that is there. *)
Lemma session_of_Expire k secs w :
  0 < secs ->
  session_of (redis_apply (Expire k secs) w) k = session_of w k.
Proof.
  intros Hs. cbn [redis_apply]. cbv zeta.
  destruct (redis (purge k w) !! k) as [h|] eqn:Hk.
  - unfold session_of at 1, purge at 1, expired.
    cbn [set_redis deadline redis now]. rewrite lookup_insert_eq.
    destruct (now (purge k w) + secs <=? now (purge k w)) eqn:E.
    + apply Nat.leb_le in E. lia.
    + cbn [set_redis redis]. unfold session_of. rewrite Hk. reflexivity.
  - apply session_of_purge.
Qed.

Lemma deadline_Expire k secs w :
  is_Some (redis (purge k w) !! k) ->
  deadline (redis_apply (Expire k secs) w) !! k = Some (now w + secs).
Proof.
  intros [h Hk]. cbn [redis_apply]. cbv zeta. rewrite Hk.
  cbn [set_redis deadline]. rewrite lookup_insert_eq, now_purge. reflexivity.
Qed.

Lemma redis_HSet_is_Some k fields w :
  is_Some (redis (redis_apply (HSet k fields) w) !! k).
Proof.
  cbn [redis_apply]. cbv zeta. cbn [set_redis redis].
  rewrite lookup_insert_eq. eauto.
Qed.

Create Rewrite HintDb session.

#[local] Hint Rewrite session_of_next_tick session_of_set_codes_table
  session_of_HSet session_of_purge session_of_Del : session.

Lemma expired_HSet k fields w :
  expired (redis_apply (HSet k fields) w) k = false.
Proof.
  pose proof (expired_purge k w) as E. unfold expired in *.
  cbn [redis_apply]. cbv zeta. cbn [set_redis deadline now]. exact E.
Qed.

(** ** The first message of a conversation *)

(** What the welcome branch does, under services that answer. *)
Lemma welcome_outcome e body msg w :
  healthy e ->
  first_message body = Some msg ->
  falsy (session_of w (key_of msg) !! "step") = true ->
  exists w',
    webhook_post e body w
    = (Return 200, w',
       [EvRedis (HGetAll (key_of msg)) true;
        EvSend (from msg) welcome_message true;
        EvRedis (HSet (key_of msg)
                   {[ "step" := "ASK_NAME"; "phone" := from msg ]}) true;
        EvRedis (Expire (key_of msg) (30 * 60)) true])
    /\ session_of w' (key_of msg)
       = {[ "step" := "ASK_NAME"; "phone" := from msg ]}
         ∪ session_of w (key_of msg)
    /\ session_of w' (key_of msg) !! "step" = Some "ASK_NAME"
    /\ session_of w' (key_of msg) !! "phone" = Some (from msg)
    /\ deadline w' !! key_of msg = Some (now w + 30 * 60)
    /\ codes_table w' = codes_table w
    /\ forall body2 msg2,
         first_message body2 = Some msg2 -> from msg2 = from msg ->
         webhook_post e body2 w = webhook_post e body w.
Proof.
  intros He Hmsg Hstep. eexists. split; [apply post_welcome; assumption|].
  assert (session_of
            (next_tick (redis_apply (Expire (key_of msg) (30 * 60))
               (next_tick (redis_apply
                  (HSet (key_of msg)
                     {[ "step" := "ASK_NAME"; "phone" := from msg ]})
                  (next_tick (next_tick (purge (key_of msg) w)))))))
            (key_of msg)
          = {[ "step" := "ASK_NAME"; "phone" := from msg ]}
            ∪ session_of w (key_of msg)) as Hs.
  { rewrite session_of_next_tick, session_of_Expire by lia.
    autorewrite with session. reflexivity. }
  split; [exact Hs|]. rewrite Hs.
  split; [apply lookup_union_Some_l, lookup_insert_eq|].
  split.
  { apply lookup_union_Some_l. rewrite lookup_insert_ne by discriminate.
    apply lookup_singleton_eq. }
  split.
  { cbn [next_tick deadline]. rewrite deadline_Expire.
    - autorewrite with world. reflexivity.
    - rewrite purge_not_expired; [apply redis_HSet_is_Some|].
      rewrite expired_next_tick. apply expired_HSet. }
  split; [autorewrite with world; reflexivity|].
  intros body2 msg2 Hmsg2 Hfrom.
  assert (key_of msg2 = key_of msg) as Hk by (unfold key_of; congruence).
  rewrite (post_welcome e He body msg w Hmsg Hstep).
  rewrite (post_welcome e He body2 msg2 w Hmsg2) by (rewrite Hk; exact Hstep).
  rewrite Hk, Hfrom. reflexivity.
Qed.

(** C6: when the sender's session has no step (the key is absent, has run
    out, or holds no step), the handler -- whatever the text of the message
    -- sends the welcome and terms, writes step ASK_NAME and the sender's
    address into the session, and starts the 30 minute expiry.  The text is
    never handed to the extractor: two messages from the same sender are
    handled identically. *)
Theorem C6_first_message_is_welcomed e body msg w :
  healthy e ->
  first_message body = Some msg ->
  falsy (session_of w (key_of msg) !! "step") = true ->
  exists w',
    webhook_post e body w
    = (Return 200, w',
       [EvRedis (HGetAll (key_of msg)) true;
        EvSend (from msg) welcome_message true;
        EvRedis (HSet (key_of msg)
                   {[ "step" := "ASK_NAME"; "phone" := from msg ]}) true;
        EvRedis (Expire (key_of msg) (30 * 60)) true])
    /\ session_of w' (key_of msg)
       = {[ "step" := "ASK_NAME"; "phone" := from msg ]}
         ∪ session_of w (key_of msg)
    /\ session_of w' (key_of msg) !! "step" = Some "ASK_NAME"
    /\ session_of w' (key_of msg) !! "phone" = Some (from msg)
    /\ deadline w' !! key_of msg = Some (now w + 30 * 60)
    /\ codes_table w' = codes_table w
    /\ forall body2 msg2,
         first_message body2 = Some msg2 -> from msg2 = from msg ->
         webhook_post e body2 w = webhook_post e body w.
Proof. apply welcome_outcome. Qed.

Lemma C6_first_message_is_welcomed_witness :
  exists w',
    fst (fst (webhook_post env_ok (text_event sender "ABC123")
                (advance 1500 (world_with (Some at_code) sample_table))))
    = Return 200
    /\ snd (fst (webhook_post env_ok (text_event sender "ABC123")
                   (advance 1500 (world_with (Some at_code) sample_table))))
       = w'
    /\ session_of w' (sessionKey_of sender)
       = {[ "step" := "ASK_NAME"; "phone" := sender ]}
    /\ deadline w' !! sessionKey_of sender = Some 4300.
Proof.
  destruct (C6_first_message_is_welcomed env_ok
              (text_event sender "ABC123") (WaMessage sender (Some "ABC123"))
              (advance 1500 (world_with (Some at_code) sample_table)))
    as (w' & Heq & Hs & _ & _ & Hd & _).
  - intros n. repeat split; reflexivity.
  - reflexivity.
  - vm_compute. reflexivity.
  - exists w'. rewrite Heq. split; [reflexivity|]. split; [reflexivity|].
    split; [etransitivity; [exact Hs | vm_compute; reflexivity] | exact Hd].
Defined.

(** ** The expiry of the session *)

Lemma timers_kept_refl w : timers_kept w w.
Proof. intros k. left. reflexivity. Qed.

Lemma timers_kept_trans w1 w2 w3 :
  timers_kept w1 w2 -> timers_kept w2 w3 -> timers_kept w1 w3.
Proof.
  intros H12 H23 k. destruct (H23 k) as [E|E]; [|right; exact E].
  rewrite E. apply H12.
Qed.

Lemma timers_kept_same w w' : deadline w' = deadline w -> timers_kept w w'.
Proof. intros E k. left. rewrite E. reflexivity. Qed.

Lemma timers_kept_purge k w : timers_kept w (purge k w).
Proof.
  unfold purge. destruct (expired w k); [|apply timers_kept_refl].
  intros k'. cbn [set_redis deadline].
  destruct (decide (k = k')) as [->|Hne].
  - right. apply lookup_delete_eq.
  - left. apply lookup_delete_ne. exact Hne.
Qed.

Lemma timer_safe_ret {A} (a : A) : timer_safe (ret a).
Proof.
  intros w r w' evs H. inversion H; subst.
  split; [apply timers_kept_refl | reflexivity].
Qed.

Lemma timer_safe_throw {A} err : timer_safe (@throw A err).
Proof.
  intros w r w' evs H. inversion H; subst.
  split; [apply timers_kept_refl | reflexivity].
Qed.

Lemma timer_safe_bind {A B} (m : M A) (k : A -> M B) :
  timer_safe m -> (forall a, timer_safe (k a)) -> timer_safe (bind m k).
Proof.
  intros Hm Hk w r w' evs H. unfold bind in H.
  destruct (m w) as [[[a|err] w1] t1] eqn:Em.
  - destruct (k a w1) as [[r2 w2] t2] eqn:Ek. inversion H; subst.
    destruct (Hm _ _ _ _ Em) as [K1 F1]. destruct (Hk _ _ _ _ _ Ek) as [K2 F2].
    split; [eapply timers_kept_trans; eassumption|].
    rewrite filter_app, F1, F2. reflexivity.
  - inversion H; subst. exact (Hm _ _ _ _ Em).
Qed.

Lemma timer_safe_try_catch {A} (m : M A) h :
  timer_safe m -> (forall err, timer_safe (h err)) ->
  timer_safe (try_catch m h).
Proof.
  intros Hm Hh w r w' evs H. unfold try_catch in H.
  destruct (m w) as [[[a|err] w1] t1] eqn:Em.
  - inversion H; subst. exact (Hm _ _ _ _ Em).
  - destruct (h err w1) as [[r2 w2] t2] eqn:Eh. inversion H; subst.
    destruct (Hm _ _ _ _ Em) as [K1 F1]. destruct (Hh _ _ _ _ _ Eh) as [K2 F2].
    split; [eapply timers_kept_trans; eassumption|].
    rewrite filter_app, F1, F2. reflexivity.
Qed.

Lemma timer_safe_redis_call e c :
  is_expire (EvRedis c true) = false -> timer_safe (redis_call e c).
Proof.
  intros Hc w r w' evs H. unfold redis_call in H. cbn [answered pass lapse steady] in H.
  assert (forall ok, filter (fun ev => is_expire ev = true) [EvRedis c ok] = [])
    as Hf.
  { intros ok. rewrite filter_cons, decide_False; [reflexivity|].
    change (is_expire (EvRedis c ok)) with (is_expire (EvRedis c true)).
    rewrite Hc. discriminate. }
  destruct (redis_fault e (tick w)); inversion H; subst.
  - split; [apply timers_kept_same; reflexivity | apply Hf].
  - split; [|apply Hf]. destruct c; try discriminate Hc.
    + intros k'. apply (timers_kept_purge key w k').
    + intros k'. apply (timers_kept_purge key w k').
    + intros k'. cbn [next_tick redis_apply set_redis deadline].
      destruct (decide (key = k')) as [->|Hne].
      * right. apply lookup_delete_eq.
      * left. apply lookup_delete_ne. exact Hne.
Qed.

Lemma timer_safe_hGetAll e key : timer_safe (hGetAll e key).
Proof.
  intros w r w' evs H. unfold hGetAll in H. cbn [answered pass lapse steady] in H.
  destruct (redis_call e (HGetAll key) w) as [[[a|err] w1] t1] eqn:E;
    inversion H; subst;
    exact (timer_safe_redis_call e (HGetAll key) eq_refl _ _ _ _ E).
Qed.

Lemma timer_safe_sendText e to body : timer_safe (sendText e to body).
Proof.
  intros w r w' evs H. unfold sendText in H. cbn [answered pass lapse steady] in H.
  destruct (axios_fault e (tick w)); inversion H; subst;
    (split; [apply timers_kept_same; reflexivity | reflexivity]).
Qed.

Lemma timer_safe_pool_query e q : timer_safe (pool_query e q).
Proof.
  intros w r w' evs H. unfold pool_query in H. cbn [answered pass lapse steady] in H.
  destruct (pg_fault e (tick w)); inversion H; subst;
    (split; [apply timers_kept_same; reflexivity | reflexivity]).
Qed.

Lemma timer_safe_validateWithOpenAI e t s d :
  timer_safe (validateWithOpenAI e t s d).
Proof.
  intros w r w' evs H. unfold validateWithOpenAI in H. cbn [answered pass lapse steady] in H. inversion H; subst.
  split; [apply timers_kept_same; reflexivity | reflexivity].
Qed.

Lemma timer_safe_updateCodeInDatabase e ph nm em ct c :
  timer_safe (updateCodeInDatabase e ph nm em ct c).
Proof.
  unfold updateCodeInDatabase. apply timer_safe_try_catch.
  - apply timer_safe_bind; [apply timer_safe_pool_query|].
    intros rows. destruct (0 <? length rows); apply timer_safe_ret.
  - intros err. apply timer_safe_throw.
Qed.

Ltac timer_safe_tac :=
  repeat first
    [ apply timer_safe_ret
    | apply timer_safe_throw
    | apply timer_safe_sendText
    | apply timer_safe_pool_query
    | apply timer_safe_validateWithOpenAI
    | apply timer_safe_updateCodeInDatabase
    | apply timer_safe_hGetAll
    | apply timer_safe_redis_call; reflexivity
    | apply timer_safe_bind; [|intros ?]
    | apply timer_safe_try_catch; [|intros ?]
    | match goal with
      | |- timer_safe (if ?c then _ else _) => destruct c
      end ].

(** Every branch of the handler other than the welcome. *)
Lemma later_steps_timer_safe e from text sessionKey (session : gmap string string) :
  falsy (session !! "step") = false ->
  timer_safe
    (if falsy (session !! "step") then
       sendText e from welcome_message ;;;
       hSet e sessionKey {[ "step" := "ASK_NAME"; "phone" := from ]} ;;;
       expire e sessionKey (30 * 60) ;;;
       ret 200
     else if bool_decide (session !! "step" = Some "ASK_NAME") then
       validation <- validateWithOpenAI e text "ASK_NAME" session ;;
       sendText e from (message validation) ;;;
       (if is_valid validation
        then hSet e sessionKey
               {[ "step" := "ASK_EMAIL"; "name" := value validation ]}
        else ret tt) ;;;
       ret 200
     else if bool_decide (session !! "step" = Some "ASK_EMAIL") then
       validation <- validateWithOpenAI e text "ASK_EMAIL" session ;;
       if negb (is_valid validation) then
         sendText e from (message validation) ;;;
         ret 200
       else
         try_catch
           (emailCheck <- pool_query e (SelectByEmail (value validation)) ;;
            if 0 <? length emailCheck then
              sendText e from already_registered_message
            else
              sendText e from (message validation) ;;;
              hSet e sessionKey
                {[ "step" := "ASK_CITY"; "email" := value validation ]})
           (fun err => sendText e from email_check_failed_message) ;;;
         ret 200
     else if bool_decide (session !! "step" = Some "ASK_CITY") then
       validation <- validateWithOpenAI e text "ASK_CITY" session ;;
       sendText e from (message validation) ;;;
       (if is_valid validation
        then hSet e sessionKey
               {[ "step" := "ASK_CODE"; "city" := value validation ]}
        else ret tt) ;;;
       ret 200
     else if bool_decide (session !! "step" = Some "ASK_CODE") then
       validation <- validateWithOpenAI e text "ASK_CODE" session ;;
       if negb (is_valid validation) then
         sendText e from (message validation) ;;;
         ret 200
       else
         try_catch
           (result <- pool_query e (SelectActiveByCode (value validation)) ;;
            if 0 <? length result then
              hSet e sessionKey {[ "code" := value validation ]} ;;;
              updateSuccess <-
                updateCodeInDatabase e
                  (Some (or_else (session !! "phone") from))
                  (session !! "name") (session !! "email")
                  (session !! "city") (value validation) ;;
              if updateSuccess then
                del e sessionKey ;;;
                sendText e from registration_complete_message
              else
                sendText e from registration_failed_message
            else
              sendText e from invalid_code_message)
           (fun err => sendText e from code_check_failed_message) ;;;
         ret 200
     else ret 200).
Proof.
  intros Hstep. rewrite Hstep. unfold hSet, del. timer_safe_tac.
Qed.

Lemma triple_eta {A B C} (x : A * B * C) : x = (fst (fst x), snd (fst x), snd x).
Proof. destruct x as [[? ?] ?]. reflexivity. Qed.

Lemma bind_inv {A B} (m : M A) (k : A -> M B) w r w' evs :
  bind m k w = (r, w', evs) ->
  (exists a w1 t1 t2,
     m w = (Return a, w1, t1) /\ k a w1 = (r, w', t2) /\ evs = t1 ++ t2)
  \/ (exists err, m w = (Throw err, w', evs) /\ r = Throw err).
Proof.
  unfold bind. destruct (m w) as [[[a|err] w1] t1].
  - destruct (k a w1) as [[r2 w2] t2] eqn:Ek. intros H. inversion H; subst.
    left. eauto 10.
  - intros H. inversion H; subst. right. eauto.
Qed.

Lemma hGetAll_value e key w a w1 t1 :
  hGetAll e key w = (Return a, w1, t1) -> a = session_of w key.
Proof.
  unfold hGetAll. destruct (redis_call e (HGetAll key) w) as [[[u|err] w2] t2];
    intros H; inversion H; reflexivity.
Qed.

(** With a step in the session, the handler neither calls [expire] nor
    sets a deadline, whatever the services do. *)
Lemma webhook_post_timer_safe e body msg w r w' evs :
  first_message body = Some msg ->
  falsy (session_of w (key_of msg) !! "step") = false ->
  webhook_post e body w = (r, w', evs) ->
  timers_kept w w' /\ filter (fun ev => is_expire ev = true) evs = [].
Proof.
  intros Hmsg Hstep H. unfold webhook_post in H. rewrite Hmsg in H.
  cbv beta iota zeta in H. fold (key_of msg) in H.
  apply bind_inv in H.
  destruct H as [(a & w1 & t1 & t2 & Eg & Ek & ->)|(err & Eg & ->)].
  - pose proof (hGetAll_value _ _ _ _ _ _ Eg) as ->.
    destruct (timer_safe_hGetAll e (key_of msg) _ _ _ _ Eg) as [K1 F1].
    destruct (later_steps_timer_safe e _ _ _ _ Hstep _ _ _ _ Ek) as [K2 F2].
    split; [eapply timers_kept_trans; eassumption|].
    rewrite filter_app, F1, F2. reflexivity.
  - exact (timer_safe_hGetAll e (key_of msg) _ _ _ _ Eg).
Qed.

(** C9: the expiry is set in one place only.  On the welcome transition the
    handler calls [expire] exactly once, with 30 minutes, and the session's
    deadline is 1800 seconds after that first message.  On every later step
    (a session with a step), whatever the services do, no [expire] is
    issued and no deadline of any key is set or moved: the writes of name,
    email, city and code leave the timer where the first message put it. *)
Theorem C9_expiry_set_only_on_welcome e body msg w r w' evs :
  first_message body = Some msg ->
  webhook_post e body w = (r, w', evs) ->
  (falsy (session_of w (key_of msg) !! "step") = true -> healthy e ->
   filter (fun ev => is_expire ev = true) evs
   = [EvRedis (Expire (key_of msg) (30 * 60)) true]
   /\ deadline w' !! key_of msg = Some (now w + 1800))
  /\ (falsy (session_of w (key_of msg) !! "step") = false ->
      filter (fun ev => is_expire ev = true) evs = []
      /\ timers_kept w w'
      /\ (deadline w' !! key_of msg = deadline w !! key_of msg
          \/ deadline w' !! key_of msg = None)).
Proof.
  intros Hmsg H. split.
  - intros Hstep He.
    destruct (welcome_outcome e body msg w He Hmsg Hstep)
      as (w2 & Heq & _ & _ & _ & Hd & _).
    rewrite Heq in H. inversion H; subst. split; [reflexivity | exact Hd].
  - intros Hstep.
    destruct (webhook_post_timer_safe e body msg w r w' evs Hmsg Hstep H)
      as [K F].
    split; [exact F|]. split; [exact K | apply K].
Qed.

Lemma C9_expiry_set_only_on_welcome_witness :
  (let x := webhook_post env_ok (text_event sender "hello")
              (world_with None sample_table) in
   filter (fun ev => is_expire ev = true) (snd x)
   = [EvRedis (Expire (sessionKey_of sender) (30 * 60)) true]
   /\ deadline (snd (fst x)) !! sessionKey_of sender = Some 2800)
  /\ (let x := webhook_post env_ok (text_event sender "John Doe")
                 (world_with (Some at_name) sample_table) in
      filter (fun ev => is_expire ev = true) (snd x) = []
      /\ deadline (snd (fst x)) !! sessionKey_of sender = Some 2000).
Proof.
  split; cbv zeta.
  - apply (proj1 (C9_expiry_set_only_on_welcome env_ok
                    (text_event sender "hello")
                    (WaMessage sender (Some "hello"))
                    (world_with None sample_table) _ _ _ eq_refl
                    (triple_eta _))).
    + vm_compute. reflexivity.
    + intros n. repeat split; reflexivity.
  - destruct (proj2 (C9_expiry_set_only_on_welcome env_ok
                       (text_event sender "John Doe")
                       (WaMessage sender (Some "John Doe"))
                       (world_with (Some at_name) sample_table)
                       _ _ _ eq_refl (triple_eta _))) as (F & _ & _).
    + vm_compute. reflexivity.
    + split; [exact F | vm_compute; reflexivity].
Defined.

(** ** The email gate *)

Lemma filter_length_pos {A} (P : A -> Prop) `{!forall x, Decision (P x)}
    (l : list A) x :
  x ∈ l -> P x -> (0 <? length (filter P l)) = true.
Proof.
  intros Hin HP. assert (x ∈ filter P l) as Hx by (apply list_elem_of_filter; auto).
  destruct (filter P l); [inversion Hx | reflexivity].
Qed.

Lemma filter_length_zero {A} (P : A -> Prop) `{!forall x, Decision (P x)}
    (l : list A) :
  (forall x, x ∈ l -> ~ P x) -> (0 <? length (filter P l)) = false.
Proof.
  intros Hall. destruct (filter P l) as [|y l'] eqn:E; [reflexivity|].
  assert (y ∈ filter P l) as Hy by (rewrite E; left).
  apply list_elem_of_filter in Hy. destruct Hy as [HP Hin].
  destruct (Hall y Hin HP).
Qed.

Lemma has_email_true em r :
  Codes.has_email em r = true <-> Codes.email r = Some em.
Proof. unfold Codes.has_email. apply bool_decide_eq_true. Qed.

(** C4: in step ASK_EMAIL with a valid verdict, the handler looks the
    extracted email up in the ledger.  When some row carries it (an inactive
    row of a finished registration in particular), the session is left as it
    was -- still ASK_EMAIL, the email not stored -- and the only text sent is
    the "already registered" one, not the extractor's.  When no row carries
    it, the handler sends the extractor's message, stores the email and
    moves the session to ASK_CITY. *)
Theorem C4_email_gate e body msg w :
  healthy e ->
  first_message body = Some msg ->
  session_of w (key_of msg) !! "step" = Some "ASK_EMAIL" ->
  is_valid (verdict (reply_at e w msg "ASK_EMAIL")) = true ->
  let v := verdict (reply_at e w msg "ASK_EMAIL") in
  exists w' evs,
    webhook_post e body w = (Return 200, w', evs)
    /\ ((exists row, row ∈ table_seen e 2 w
                     /\ Codes.email row = Some (value v)) ->
        session_of w' (key_of msg) = session_of w (key_of msg)
        /\ session_of w' (key_of msg) !! "step" = Some "ASK_EMAIL"
        /\ redis w' = redis w
        /\ sent evs = [already_registered_message])
    /\ ((forall row, row ∈ table_seen e 2 w ->
                     Codes.email row <> Some (value v)) ->
        session_of w' (key_of msg)
        = {[ "step" := "ASK_CITY"; "email" := value v ]}
          ∪ session_of w (key_of msg)
        /\ session_of w' (key_of msg) !! "step" = Some "ASK_CITY"
        /\ session_of w' (key_of msg) !! "email" = Some (value v)
        /\ sent evs = [message v]).
Proof.
  intros He Hmsg Hstep Hv. cbv zeta.
  rewrite (post_ASK_EMAIL e He body msg w Hmsg Hstep). cbv zeta. rewrite Hv.
  pose proof (step_not_expired _ _ _ Hstep) as Hlive.
  destruct (0 <? length (filter _ _)) eqn:Hrows.
  - eexists _, _. split; [reflexivity|]. split.
    + intros _. autorewrite with session.
      split; [reflexivity|]. split; [exact Hstep|].
      split; [|reflexivity].
      cbn [next_tick set_codes_table redis]. rewrite purge_not_expired by exact Hlive.
      reflexivity.
    + intros Hnone. exfalso.
      rewrite filter_length_zero in Hrows; [discriminate|].
      intros row Hin Hem. apply has_email_true in Hem. exact (Hnone row Hin Hem).
  - eexists _, _. split; [reflexivity|]. split.
    + intros (row & Hin & Hem). exfalso.
      rewrite (filter_length_pos _ _ row) in Hrows; [discriminate|exact Hin|].
      apply has_email_true. exact Hem.
    + intros _. autorewrite with session.
      split; [reflexivity|].
      split; [apply lookup_union_Some_l, lookup_insert_eq|].
      split; [|reflexivity].
      apply lookup_union_Some_l. rewrite lookup_insert_ne by discriminate.
      apply lookup_singleton_eq.
Qed.

Lemma C4_email_gate_witness :
  (let x := webhook_post env_ok (text_event sender "asha@example.com")
              (world_with (Some at_email) sample_table) in
   session_of (snd (fst x)) (sessionKey_of sender) = at_email
   /\ sent (snd x) = [already_registered_message])
  /\ (let x := webhook_post env_ok (text_event sender "john@example.com")
                 (world_with (Some at_email) sample_table) in
      session_of (snd (fst x)) (sessionKey_of sender) !! "step"
      = Some "ASK_CITY"
      /\ sent (snd x) = ["Great, noted! What comes next?"]).
Proof.
  split; cbv zeta.
  - destruct (C4_email_gate env_ok (text_event sender "asha@example.com")
                (WaMessage sender (Some "asha@example.com"))
                (world_with (Some at_email) sample_table))
      as (w' & evs & Heq & Hdup & _).
    + intros n. repeat split; reflexivity.
    + reflexivity.
    + vm_compute. reflexivity.
    + vm_compute. reflexivity.
    + rewrite Heq. cbn [fst snd].
      destruct Hdup as (Hs & _ & _ & Hsent).
      * exists (used_code "OLD111" "id-2" "asha@example.com").
        split; [vm_compute; right; left | vm_compute; reflexivity].
      * split; [etransitivity; [exact Hs | vm_compute; reflexivity]
               | exact Hsent].
  - destruct (C4_email_gate env_ok (text_event sender "john@example.com")
                (WaMessage sender (Some "john@example.com"))
                (world_with (Some at_email) sample_table))
      as (w' & evs & Heq & _ & Hnew).
    + intros n. repeat split; reflexivity.
    + reflexivity.
    + vm_compute. reflexivity.
    + vm_compute. reflexivity.
    + rewrite Heq. cbn [fst snd].
      destruct Hnew as (_ & Hs & _ & Hsent).
      * intros row Hin. vm_compute in Hin.
        apply elem_of_cons in Hin. destruct Hin as [->|Hin]; [discriminate|].
        apply elem_of_cons in Hin. destruct Hin as [->|Hin]; [discriminate|].
        inversion Hin.
      * split; [exact Hs | exact Hsent].
Defined.

(** ** Who words the reply *)

(** C5, amended: in ASK_NAME and ASK_CITY the one text sent is the
    extractor's message, valid or not.  In ASK_EMAIL and ASK_CODE the
    extractor's message is the one text sent on the invalid branch.  On the
    valid branch the reply is chosen after the ledger was asked: in ASK_CODE
    it is one of the engine's own texts; in ASK_EMAIL it is the engine's
    "already registered" text when the email query returned rows and the
    extractor's message when it returned none. *)
Theorem C5_who_words_the_reply e body msg w step :
  healthy e ->
  first_message body = Some msg ->
  session_of w (key_of msg) !! "step" = Some step ->
  let v := verdict (reply_at e w msg step) in
  let asked := [EvRedis (HGetAll (key_of msg)) true;
                EvChat (text_of msg) step (session_of w (key_of msg))
                  (reply_at e w msg step)] in
  (step = "ASK_NAME" \/ step = "ASK_CITY" ->
   exists w', exists rest,
     webhook_post e body w = (Return 200, w', asked ++ rest)
     /\ sent rest = [message v])
  /\ (step = "ASK_EMAIL" \/ step = "ASK_CODE" -> is_valid v = false ->
      exists w',
        webhook_post e body w
        = (Return 200, w', asked ++ [EvSend (from msg) (message v) true]))
  /\ (step = "ASK_EMAIL" -> is_valid v = true ->
      exists w' n rest,
        webhook_post e body w
        = (Return 200, w',
           asked ++ EvQuery (SelectByEmail (value v)) (Some n) :: rest)
        /\ sent rest = [if 0 <? n then already_registered_message
                        else message v])
  /\ (step = "ASK_CODE" -> is_valid v = true ->
      exists w' n rest t,
        webhook_post e body w
        = (Return 200, w',
           asked ++ EvQuery (SelectActiveByCode (value v)) (Some n) :: rest)
        /\ sent rest = [t]
        /\ t ∈ [registration_complete_message; registration_failed_message;
                invalid_code_message]).
Proof.
  intros He Hmsg Hstep. cbv zeta. repeat split.
  - intros Hcase.
    assert (exists next field,
              (step = "ASK_NAME" /\ next = "ASK_EMAIL" /\ field = "name")
              \/ (step = "ASK_CITY" /\ next = "ASK_CODE" /\ field = "city"))
      as (next & field & Hc).
    { destruct Hcase as [->| ->]; eexists _, _; [left|right]; eauto. }
    rewrite (post_field e He body msg w Hmsg step next field Hc Hstep).
    cbv zeta. destruct (is_valid _); eexists _, _; (split; [reflexivity|]);
      reflexivity.
  - intros Hcase Hv. destruct Hcase as [->| ->].
    + rewrite (post_ASK_EMAIL e He body msg w Hmsg Hstep). cbv zeta.
      rewrite Hv. eexists. reflexivity.
    + rewrite (post_ASK_CODE e He body msg w Hmsg Hstep). cbv zeta.
      rewrite Hv. eexists. reflexivity.
  - intros -> Hv.
    rewrite (post_ASK_EMAIL e He body msg w Hmsg Hstep). cbv zeta. rewrite Hv.
    destruct (0 <? length (filter _ _)) eqn:Hrows; eexists _, _, _;
      (split; [reflexivity|]); rewrite Hrows; reflexivity.
  - intros -> Hv.
    rewrite (post_ASK_CODE e He body msg w Hmsg Hstep). cbv zeta. rewrite Hv.
    destruct (0 <? length (filter _ _)) eqn:Hfound;
      [destruct (0 <? length (fst _)) eqn:Hupd|]; eexists _, _, _, _;
      (split; [reflexivity|]); (split; [reflexivity|]);
      repeat first [left | right; left | right; right; left].
Qed.

Lemma C5_who_words_the_reply_witness :
  exists w' n rest,
    webhook_post env_ok (text_event sender "john@example.com")
      (world_with (Some at_email) sample_table)
    = (Return 200, w',
       [EvRedis (HGetAll (sessionKey_of sender)) true;
        EvChat "john@example.com" "ASK_EMAIL" at_email
          (Some {| message := "Great, noted! What comes next?";
                   is_valid := true; value := "john@example.com" |})]
       ++ EvQuery (SelectByEmail "john@example.com") (Some n) :: rest)
    /\ sent rest = [if 0 <? n then already_registered_message
                    else "Great, noted! What comes next?"].
Proof.
  destruct (C5_who_words_the_reply env_ok
              (text_event sender "john@example.com")
              (WaMessage sender (Some "john@example.com"))
              (world_with (Some at_email) sample_table) "ASK_EMAIL")
    as (_ & _ & Hemail & _).
  - intros n. repeat split; reflexivity.
  - reflexivity.
  - vm_compute. reflexivity.
  - destruct (Hemail eq_refl) as (w' & n & rest & Heq & Hsent).
    + vm_compute. reflexivity.
    + exists w', n, rest. split; [|exact Hsent].
      etransitivity; [exact Heq|]. vm_compute. reflexivity.
Defined.

(** C5, as stated, fails for ASK_EMAIL: on the valid branch, with an email
    no row carries, the one text the handler sends is the extractor's
    message (which here is none of the engine's own texts). *)
Lemma C5_extractor_text_on_valid_email :
  let w := world_with (Some at_email) sample_table in
  let msg := WaMessage sender (Some "john@example.com") in
  let v := verdict (reply_at env_ok w msg "ASK_EMAIL") in
  session_of w (key_of msg) !! "step" = Some "ASK_EMAIL"
  /\ is_valid v = true
  /\ bool_decide (message v ∈ engine_texts) = false
  /\ sent (snd (webhook_post env_ok (text_event sender "john@example.com") w))
     = [message v].
Proof. cbv zeta. repeat split; vm_compute; reflexivity. Qed.

(** ** The code step *)


Lemma step_is_Some w k f s :
  session_of w k !! f = Some s -> is_Some (redis w !! k).
Proof.
  intros H. pose proof H as Hlive. unfold session_of in H.
  assert (expired w k = false) as E.
  { unfold session_of, purge in Hlive. destruct (expired w k); [|reflexivity].
    cbn [set_redis redis] in Hlive. rewrite lookup_delete_eq in Hlive.
    cbn in Hlive. rewrite lookup_empty in Hlive. discriminate. }
  rewrite purge_not_expired in H by exact E.
  destruct (redis w !! k); [eauto|].
  cbn in H. rewrite lookup_empty in H. discriminate.
Qed.

Ltac in_cases H :=
  cbn [In app] in H;
  repeat (destruct H as [H|H]; [try discriminate H|]);
  try contradiction.

(** ** The code step while the clock runs *)

(** [pass] is [advance]. *)
Lemma pass_advance d w : pass d w = advance d w.
Proof.
  destruct d; [|reflexivity]. destruct w. unfold advance. cbn.
  rewrite Nat.add_0_r. reflexivity.
Qed.

Lemma tick_pass d w : tick (pass d w) = tick w.
Proof. destruct d; reflexivity. Qed.

Lemma redis_pass d w : redis (pass d w) = redis w.
Proof. destruct d; reflexivity. Qed.

Lemma deadline_pass d w : deadline (pass d w) = deadline w.
Proof. destruct d; reflexivity. Qed.

Lemma codes_table_pass d w : codes_table (pass d w) = codes_table w.
Proof. destruct d; reflexivity. Qed.

Lemma now_pass d w : now (pass d w) = now w + d.
Proof. destruct d; [symmetry; apply Nat.add_0_r | reflexivity]. Qed.

(** The awaited calls under services that answer, whatever the clock. *)
Section Running.

Context {clk : Clock}.
Variable e : env.
Hypothesis He : healthy e.

Lemma tick_answered w0 w : tick (answered w0 w) = S (tick w).
Proof. unfold answered. rewrite tick_pass. reflexivity. Qed.

Lemma redis_answered w0 w : redis (answered w0 w) = redis w.
Proof. unfold answered. rewrite redis_pass. reflexivity. Qed.

Lemma deadline_answered w0 w : deadline (answered w0 w) = deadline w.
Proof. unfold answered. rewrite deadline_pass. reflexivity. Qed.

Lemma codes_table_answered w0 w : codes_table (answered w0 w) = codes_table w.
Proof. unfold answered. rewrite codes_table_pass. reflexivity. Qed.

Lemma now_answered w0 w : now (answered w0 w) = now w + lapse (tick w0).
Proof. unfold answered. rewrite now_pass. reflexivity. Qed.

Lemma redis_call_run c w :
  redis_call e c w = (Return tt, answered w (redis_apply c w), [EvRedis c true]).
Proof. unfold redis_call. destruct (He (tick w)) as (-> & _). reflexivity. Qed.

Lemma hGetAll_run key w :
  hGetAll e key w
  = (Return (session_of w key), answered w (purge key w),
     [EvRedis (HGetAll key) true]).
Proof. unfold hGetAll. rewrite redis_call_run. reflexivity. Qed.

Lemma sendText_run to body w :
  sendText e to body w = (Return tt, answered w w, [EvSend to body true]).
Proof. unfold sendText. destruct (He (tick w)) as (_ & _ & ->). reflexivity. Qed.

Lemma pool_query_run q w :
  pool_query e q w
  = (let res := exec q (now w) (pg_concurrent e (tick w) (codes_table w)) in
     (Return (fst res), answered w (set_codes_table (snd res) w),
      [EvQuery q (Some (length (fst res)))])).
Proof. unfold pool_query. destruct (He (tick w)) as (_ & -> & _). reflexivity. Qed.

Lemma validateWithOpenAI_run userInput currentStep sessionData w :
  validateWithOpenAI e userInput currentStep sessionData w
  = (Return (verdict (openai_chat e (tick w) userInput currentStep sessionData)),
     answered w w,
     [EvChat userInput currentStep sessionData
        (openai_chat e (tick w) userInput currentStep sessionData)]).
Proof. reflexivity. Qed.

Lemma updateCodeInDatabase_run ph nm em ct c w :
  updateCodeInDatabase e ph nm em ct c w
  = (let out := exec (UpdateClaim ph nm em ct c) (now w)
                  (pg_concurrent e (tick w) (codes_table w)) in
     (Return (0 <? length (fst out)),
      answered w (set_codes_table (snd out) w),
      [EvQuery (UpdateClaim ph nm em ct c) (Some (length (fst out)))])).
Proof.
  unfold updateCodeInDatabase, try_catch, bind. rewrite pool_query_run.
  cbv zeta. cbn [fst snd]. unfold ret.
  destruct (0 <? _); reflexivity.
Qed.

End Running.

Ltac run_with L :=
  erewrite bind_Return by (apply L; assumption); cbv beta iota zeta.

Ltac runs :=
  repeat first
    [ run_with @hGetAll_run
    | run_with @sendText_run
    | run_with @redis_call_run
    | run_with @pool_query_run
    | erewrite bind_Return by apply @validateWithOpenAI_run;
      cbv beta iota zeta ].

Section CodeStep.

Context {clk : Clock}.
Variable e : env.
Hypothesis He : healthy e.
Variables (body : wa_body) (msg : wa_message) (w : world).
Hypothesis Hmsg : first_message body = Some msg.
Hypothesis Hstep : session_of w (key_of msg) !! "step" = Some "ASK_CODE".
Hypothesis Hv : is_valid (verdict (reply_at e w msg "ASK_CODE")) = true.

(** The valid branch of ASK_CODE, case by case on what the ledger holds:
    [found] are the active rows the lookup sees for the code, [hit] those
    the claim finds two calls later. *)
Lemma code_step_cases :
  let key := key_of msg in
  let session := session_of w key in
  let res := reply_at e w msg "ASK_CODE" in
  let v := verdict res in
  let tbl := table_seen e 2 w in
  let found := filter (fun r => Codes.is_active_code (value v) r = true) tbl in
  let hit := filter (fun r => Codes.is_active_code (value v) r = true)
               (pg_concurrent e (4 + tick w) tbl) in
  let upd := UpdateClaim (Some (or_else (session !! "phone") (from msg)))
               (session !! "name") (session !! "email") (session !! "city")
               (value v) in
  let pre := [EvRedis (HGetAll key) true;
              EvChat (text_of msg) "ASK_CODE" session res;
              EvQuery (SelectActiveByCode (value v)) (Some (length found))] in
  let store := EvRedis (HSet key {[ "code" := value v ]}) true in
  exists w' evs,
    webhook_post e body w = (Return 200, w', evs)
    /\ match found, hit with
       | [], _ =>
           evs = pre ++ [EvSend (from msg) invalid_code_message true]
           /\ redis w' = redis w /\ deadline w' = deadline w
       | _ :: _, [] =>
           evs = pre ++ [store; EvQuery upd (Some 0);
                         EvSend (from msg) registration_failed_message true]
           /\ (if outlives (code_wait w) w key
               then redis w' !! key = Some (<[ "code" := value v ]> session)
                    /\ deadline w' !! key = deadline w !! key
               else redis w' !! key = Some {[ "code" := value v ]}
                    /\ deadline w' !! key = None)
       | _ :: _, _ :: _ =>
           evs = pre ++ [store; EvQuery upd (Some (length hit));
                         EvRedis (Del key) true;
                         EvSend (from msg) registration_complete_message true]
           /\ redis w' !! key = None /\ deadline w' !! key = None
       end.
Proof.
  intros key session res v tbl found hit upd pre store.
  pose proof (step_not_expired _ _ _ Hstep) as Hlive.
  unfold webhook_post. rewrite Hmsg. cbv beta iota zeta.
  fold (key_of msg) (text_of msg). run_with @hGetAll_run.
  pick_step Hstep.
  runs. rewrite tick_answered, tick_purge. fold (reply_at e w msg "ASK_CODE").
  rewrite Hv. cbn [negb]. cbv iota.
  rewrite (purge_not_expired _ _ Hlive).
  fold key session res v.
  set (w1 := answered w w). set (w2 := answered w1 w1).
  assert (tick w2 = 2 + tick w) as Ht2
    by (subst w2 w1; rewrite !tick_answered; reflexivity).
  assert (codes_table w2 = codes_table w) as Hc2
    by (subst w2 w1; rewrite !codes_table_answered; reflexivity).
  assert (pool_query e (SelectActiveByCode (value v)) w2
          = (Return found, answered w2 (set_codes_table tbl w2),
             [EvQuery (SelectActiveByCode (value v)) (Some (length found))]))
    as Hsel.
  { rewrite pool_query_run by exact He. cbv zeta. cbn [exec fst snd].
    rewrite Ht2, Hc2. reflexivity. }
  set (w3 := answered w2 (set_codes_table tbl w2)) in *.
  assert (redis w3 = redis w /\ deadline w3 = deadline w
          /\ now w3 = now w + code_wait w /\ tick w3 = 3 + tick w
          /\ codes_table w3 = tbl) as (Hr3 & Hd3 & Hn3 & Ht3 & Hc3).
  { subst w3 w2 w1. rewrite !redis_answered, !deadline_answered,
      !now_answered, !tick_answered, !codes_table_answered.
    cbn [set_codes_table redis deadline now tick codes_table].
    rewrite !redis_answered, !deadline_answered, !now_answered,
      !tick_answered.
    unfold code_wait. cbn [Nat.add]. repeat split; lia. }
  set (w4 := answered w3 (redis_apply (HSet key {[ "code" := value v ]}) w3)).
  assert (tick w4 = 4 + tick w /\ codes_table w4 = tbl) as (Ht4 & Hc4).
  { subst w4. rewrite tick_answered, codes_table_answered,
      tick_redis_apply, codes_table_redis_apply, Ht3, Hc3. split; reflexivity. }
  assert (exists w5,
            updateCodeInDatabase e
              (Some (or_else (session !! "phone") (from msg)))
              (session !! "name") (session !! "email") (session !! "city")
              (value v) w4
            = (Return (0 <? length hit), w5,
               [EvQuery upd (Some (length hit))])
            /\ redis w5 = redis w4 /\ deadline w5 = deadline w4)
    as (w5 & Hupd & Hr5 & Hd5).
  { eexists. rewrite updateCodeInDatabase_run by exact He. cbv zeta.
    cbn [exec fst snd]. rewrite length_fmap, Ht4, Hc4.
    split; [reflexivity|].
    rewrite redis_answered, deadline_answered. split; reflexivity. }
  assert (if outlives (code_wait w) w key
          then redis w4 !! key = Some (<[ "code" := value v ]> session)
               /\ deadline w4 !! key = deadline w !! key
          else redis w4 !! key = Some {[ "code" := value v ]}
               /\ deadline w4 !! key = None) as Hstore.
  { subst w4. rewrite redis_answered, deadline_answered.
    cbn [redis_apply]. cbv zeta. cbn [set_redis redis deadline].
    rewrite lookup_insert_eq.
    assert (expired w3 key = expired (advance (code_wait w) w) key) as Hex
      by (unfold expired; rewrite Hd3, Hn3; reflexivity).
    unfold outlives. rewrite <- Hex. unfold purge.
    destruct (expired w3 key) eqn:E; cbn [negb].
    - cbn [set_redis redis deadline]. rewrite !lookup_delete_eq. cbn.
      split; [|reflexivity]. rewrite (right_id_L ∅ (∪)). reflexivity.
    - rewrite Hr3, Hd3. split; [|reflexivity].
      destruct (step_is_Some _ _ _ _ Hstep) as [h Hh].
      assert (session = h) as ->.
      { unfold session, session_of. change key with (key_of msg).
        rewrite (purge_not_expired _ _ Hlive), Hh. reflexivity. }
      fold key in Hh. rewrite Hh. cbn. f_equal. symmetry.
      apply insert_union_singleton_l. }
  destruct found as [|r0 f0] eqn:Hfound.
  - eexists _, _. split.
    { erewrite bind_Return
        by (apply try_catch_Return; erewrite bind_Return by exact Hsel;
            cbv beta iota zeta; cbn [length Nat.ltb Nat.leb];
            rewrite (sendText_run e He); reflexivity).
      reflexivity. }
    split; [reflexivity|].
    rewrite redis_answered, deadline_answered. split; assumption.
  - destruct hit as [|r1 h1] eqn:Hhit.
    + eexists _, _. split.
      { erewrite bind_Return
          by (apply try_catch_Return; erewrite bind_Return by exact Hsel;
              cbv beta iota zeta; cbn [length Nat.ltb Nat.leb];
              unfold hSet; run_with @redis_call_run; fold w4;
              erewrite bind_Return by exact Hupd;
              cbv beta iota zeta; cbn [length Nat.ltb Nat.leb];
              rewrite (sendText_run e He); reflexivity).
        reflexivity. }
      split; [reflexivity|].
      rewrite redis_answered, deadline_answered, Hr5, Hd5. exact Hstore.
    + eexists _, _. split.
      { erewrite bind_Return
          by (apply try_catch_Return; erewrite bind_Return by exact Hsel;
              cbv beta iota zeta; cbn [length Nat.ltb Nat.leb];
              unfold hSet; run_with @redis_call_run; fold w4;
              erewrite bind_Return by exact Hupd;
              cbv beta iota zeta; cbn [length Nat.ltb Nat.leb];
              unfold del; run_with @redis_call_run;
              rewrite (sendText_run e He); reflexivity).
        reflexivity. }
      split; [reflexivity|].
      rewrite redis_answered, deadline_answered, redis_answered,
        deadline_answered.
      cbn [redis_apply set_redis redis deadline].
      rewrite !lookup_delete_eq. split; reflexivity.
Qed.

End CodeStep.

Lemma expired_no_deadline w k : deadline w !! k = None -> expired w k = false.
Proof. intros H. unfold expired. rewrite H. reflexivity. Qed.



Lemma live_session w k s :
  session_of w k !! "step" = Some s -> redis w !! k = Some (session_of w k).
Proof.
  intros H. destruct (step_is_Some _ _ _ _ H) as [h Hh].
  unfold session_of. rewrite (purge_not_expired _ _ (step_not_expired _ _ _ H)).
  rewrite Hh. reflexivity.
Qed.





(** ** One winner per code *)

Section Winners.

Variable c : string.

Lemma claim_same_code ph nm em ct t tbl :
  active_rows c (snd (exec (UpdateClaim ph nm em ct c) t tbl)) = 0.
Proof.
  unfold active_rows.
  rewrite filter_nil_of_none_active by apply claim_leaves_none_active.
  reflexivity.
Qed.

Lemma claim_other_code ph nm em ct c' t tbl :
  c' <> c ->
  active_rows c (snd (exec (UpdateClaim ph nm em ct c') t tbl))
  = active_rows c tbl.
Proof.
  intros Hne. unfold active_rows. cbn [exec snd].
  induction tbl as [|r tbl IH]; [reflexivity|].
  rewrite fmap_cons, !filter_cons.
  destruct (Codes.is_active_code c' r) eqn:Ea.
  - assert (Codes.is_active_code c r = false) as Hr.
    { unfold Codes.is_active_code in *. apply andb_true_iff in Ea.
      destruct Ea as [Ec _]. apply bool_decide_eq_true in Ec.
      rewrite (bool_decide_eq_false_2 (Codes.code r = c)) by congruence.
      reflexivity. }
    rewrite decide_False by (rewrite claim_row_not_active; discriminate).
    rewrite decide_False by (rewrite Hr; discriminate). exact IH.
  - destruct (decide (Codes.is_active_code c r = true)); cbn [length];
      rewrite IH; reflexivity.
Qed.

Lemma claim_answer ph nm em ct c' t (tbl : list Codes.row) :
  (0 <? length (fst (exec (UpdateClaim ph nm em ct c') t tbl)))
  = (0 <? length (filter (fun r => Codes.is_active_code c' r = true) tbl)).
Proof. cbn [exec fst]. rewrite length_fmap. reflexivity. Qed.

(** Every win for [c] uses up the code: wins so far plus "still active"
    is what it was at the start. *)
Lemma run_claims_balance reqs :
  forall tbl,
    wins c (reqs.*1) (fst (run_claims reqs tbl))
    + Nat.min 1 (active_rows c (snd (run_claims reqs tbl)))
    = Nat.min 1 (active_rows c tbl).
Proof.
  induction reqs as [|[q t] reqs IH]; intros tbl; [reflexivity|].
  cbn [run_claims fmap list_fmap fst snd wins]. cbv zeta. cbn [fst snd].
  rewrite <- Nat.add_assoc, IH, claim_answer.
  destruct (bool_decide (wanted q = c)) eqn:Ec; cbn [andb].
  - apply bool_decide_eq_true in Ec. rewrite Ec, claim_same_code.
    fold (active_rows c tbl). destruct (active_rows c tbl); reflexivity.
  - apply bool_decide_eq_false in Ec.
    rewrite claim_other_code by exact Ec. reflexivity.
Qed.

Lemma run_claims_length reqs :
  forall tbl, length (fst (run_claims reqs tbl)) = length reqs.
Proof.
  induction reqs as [|[q t] reqs IH]; intros tbl; [reflexivity|].
  cbn [run_claims fst length]. cbv zeta. cbn [fst length].
  rewrite IH. reflexivity.
Qed.

Lemma wins_snoc reqs : forall bs q b,
  length bs = length reqs ->
  wins c (reqs ++ [q]) (bs ++ [b])
  = wins c reqs bs + (if bool_decide (wanted q = c) && b then 1 else 0).
Proof.
  induction reqs as [|q0 reqs IH]; intros [|b0 bs] q b Hl;
    try discriminate Hl.
  - cbn. lia.
  - cbn [app wins]. rewrite IH by (cbn in Hl; lia). lia.
Qed.

Lemma active_rows_pos tbl row :
  row ∈ tbl -> Codes.is_active_code c row = true -> 0 < active_rows c tbl.
Proof.
  intros Hin Ha. unfold active_rows.
  pose proof (filter_length_pos
                (fun r => Codes.is_active_code c r = true) tbl row Hin Ha) as H.
  apply Nat.ltb_lt in H. exact H.
Qed.

End Winners.

(** C2: at most one claim of a code ever succeeds, concurrent claims
    included.  The claim is one call, the conditional update guarded by
    status = 'active', and it returns whether that statement updated a row;
    there is no read before it and no statement after it for another
    request to come between.  What other requests do concurrently reaches
    it as the claims they committed before that one statement runs, in any
    number and for any codes and registrants.  Among those claims and this
    one, at most one for the code returned true, and exactly one did when
    the code was active at the start.  So of two claims of one active code the one
    whose statement runs first returns true and the other false, in either
    order: with the rival first this one returns false; alone it returns
    true, after which no row with the code is active and any later claim
    returns false. *)
Theorem C2_one_winner_under_concurrency e me w others :
  pg_fault e (tick w) = false ->
  pg_concurrent e (tick w) (codes_table w)
  = snd (run_claims others (codes_table w)) ->
  let c := wanted me in
  let bs := fst (run_claims others (codes_table w)) in
  let active_at_start :=
    exists row, row ∈ codes_table w /\ Codes.is_active_code c row = true in
  exists b n w',
    updateCodeInDatabase e (phone me) (claimant me) (claimant_email me)
      (claimant_city me) c w
    = (Return b, w',
       [EvQuery (UpdateClaim (phone me) (claimant me) (claimant_email me)
                   (claimant_city me) c) (Some n)])
    /\ tick w' = S (tick w)
    /\ b = (0 <? n)
    /\ wins c (others.*1 ++ [me]) (bs ++ [b]) <= 1
    /\ (active_at_start -> wins c (others.*1 ++ [me]) (bs ++ [b]) = 1)
    /\ (active_at_start -> others = [] -> b = true)
    /\ (active_at_start ->
        forall q t, others = [(q, t)] -> wanted q = c ->
                    bs = [true] /\ b = false)
    /\ (Forall (fun r => Codes.is_active_code c r = false) (codes_table w) ->
        wins c (others.*1 ++ [me]) (bs ++ [b]) = 0 /\ b = false)
    /\ Forall (fun r => Codes.is_active_code c r = false) (codes_table w').
Proof.
  intros Hp Hothers. cbv zeta.
  rewrite updateCodeInDatabase_eq. cbv zeta. rewrite Hp, Hothers.
  eexists _, _, _. split; [reflexivity|].
  split; [reflexivity|]. split; [reflexivity|].
  pose proof (run_claims_balance (wanted me) others (codes_table w)) as Hbal.
  unfold active_rows in Hbal.
  pose proof (run_claims_length others (codes_table w)) as Hlen.
  assert (length (fst (run_claims others (codes_table w)))
          = length (others.*1)) as Hlen'
    by (rewrite length_fmap; exact Hlen).
  rewrite (wins_snoc (wanted me) _ _ me _ Hlen').
  rewrite bool_decide_eq_true_2 by reflexivity. cbn [andb].
  rewrite claim_answer.
  set (final := length (filter (fun r => Codes.is_active_code (wanted me) r
                                         = true)
                          (snd (run_claims others (codes_table w))))) in *.
  set (start := length (filter (fun r => Codes.is_active_code (wanted me) r
                                         = true) (codes_table w))) in *.
  assert ((if 0 <? final then 1 else 0) = Nat.min 1 final) as Hb
    by (destruct final; reflexivity).
  split; [rewrite Hb; lia|].
  split.
  { intros (row & Hin & Ha).
    pose proof (active_rows_pos (wanted me) _ row Hin Ha) as Hpos.
    unfold active_rows in Hpos.
    fold start in Hpos. rewrite Hb. lia. }
  split.
  { intros (row & Hin & Ha) ->.
    pose proof (active_rows_pos (wanted me) _ row Hin Ha) as Hpos.
    unfold active_rows in Hpos.
    cbn [run_claims snd] in final. subst final. fold start.
    destruct start; [lia|reflexivity]. }
  split.
  { intros (row & Hin & Ha) q t -> Hq.
    pose proof (active_rows_pos (wanted me) _ row Hin Ha) as Hpos.
    unfold active_rows in Hpos.
    fold start in Hpos. subst final.
    cbn [run_claims fst snd]. cbv zeta. cbn [fst snd].
    rewrite claim_answer, Hq. fold start.
    rewrite (filter_nil_of_none_active (wanted me))
      by (rewrite <- Hq; apply claim_leaves_none_active).
    split; [|reflexivity]. destruct start; [lia|reflexivity]. }
  split.
  { intros Hnone.
    assert (start = 0) as Hs
      by (subst start; rewrite filter_nil_of_none_active by exact Hnone;
          reflexivity).
    assert (final = 0) as Hf by lia.
    rewrite Hf. cbn. split; [lia | reflexivity]. }
  cbn [next_tick set_codes_table codes_table].
  apply claim_leaves_none_active.
Qed.

Lemma C2_one_winner_under_concurrency_witness :
  exists w' evs,
    updateCodeInDatabase env_rival (Some "+911234567") (Some "John Doe")
      (Some "john@example.com") (Some "Mumbai") "ABC123"
      (world_with None sample_table)
    = (Return false, w', evs)
    /\ fst (run_claims [(rival, 900)] sample_table) = [true].
Proof.
  destruct (C2_one_winner_under_concurrency env_rival
              (ClaimRequest (Some "+911234567") (Some "John Doe")
                 (Some "john@example.com") (Some "Mumbai") "ABC123")
              (world_with None sample_table) [(rival, 900)])
    as (b & n & w' & Heq & _ & _ & _ & _ & _ & Htwo & _).
  - reflexivity.
  - reflexivity.
  - destruct (Htwo (ex_intro _ (fresh_code "ABC123" "id-1")
                       (conj (list_elem_of_here _ _) eq_refl))
                   rival 900 eq_refl eq_refl) as [Hbs ->].
    exists w'. eexists. split; [exact Heq | exact Hbs].
Defined.

(** * Wider properties of the handler *)

(** ** What the handler keeps, whatever the services do *)

Section Keeps.

Variable R : world -> world -> Prop.
Variable P : event -> Prop.
Hypothesis R_refl : forall w, R w w.
Hypothesis R_trans : forall w1 w2 w3, R w1 w2 -> R w2 w3 -> R w1 w3.

Lemma keeps_ret {A} (a : A) : keeps R P (ret a).
Proof. intros w r w' evs H. inversion H; subst. split; [apply R_refl | constructor]. Qed.

Lemma keeps_throw {A} err : keeps R P (@throw A err).
Proof. intros w r w' evs H. inversion H; subst. split; [apply R_refl | constructor]. Qed.

Lemma keeps_bind {A B} (m : M A) (k : A -> M B) :
  keeps R P m -> (forall a, keeps R P (k a)) -> keeps R P (bind m k).
Proof.
  intros Hm Hk w r w' evs H. apply bind_inv in H.
  destruct H as [(a & w1 & t1 & t2 & Em & Ek & ->)|(err & Em & ->)].
  - destruct (Hm _ _ _ _ Em) as [R1 P1]. destruct (Hk _ _ _ _ _ Ek) as [R2 P2].
    split; [eapply R_trans; eassumption | apply Forall_app; split; assumption].
  - exact (Hm _ _ _ _ Em).
Qed.

Lemma keeps_try_catch {A} (m : M A) h :
  keeps R P m -> (forall err, keeps R P (h err)) -> keeps R P (try_catch m h).
Proof.
  intros Hm Hh w r w' evs H. unfold try_catch in H.
  destruct (m w) as [[[a|err] w1] t1] eqn:Em.
  - inversion H; subst. exact (Hm _ _ _ _ Em).
  - destruct (h err w1) as [[r2 w2] t2] eqn:Eh. inversion H; subst.
    destruct (Hm _ _ _ _ Em) as [R1 P1]. destruct (Hh _ _ _ _ _ Eh) as [R2 P2].
    split; [eapply R_trans; eassumption | apply Forall_app; split; assumption].
Qed.

Variable e : env.
Variable who : string.
Hypothesis keeps_redis :
  forall c, cmd_key c = sessionKey_of who -> keeps R P (redis_call e c).
Hypothesis keeps_pool : forall q, keeps R P (pool_query e q).
Hypothesis keeps_send : forall body, keeps R P (sendText e who body).
Hypothesis keeps_chat :
  forall t s d, keeps R P (validateWithOpenAI e t s d).

Lemma keeps_hGetAll : keeps R P (hGetAll e (sessionKey_of who)).
Proof.
  intros w r w' evs H. unfold hGetAll in H. cbn [answered pass lapse steady] in H.
  destruct (redis_call e (HGetAll (sessionKey_of who)) w)
    as [[[a|err] w1] t1] eqn:E;
    inversion H; subst;
    exact (keeps_redis (HGetAll (sessionKey_of who)) eq_refl _ _ _ _ E).
Qed.

Lemma keeps_updateCodeInDatabase ph nm em ct c :
  keeps R P (updateCodeInDatabase e ph nm em ct c).
Proof.
  unfold updateCodeInDatabase. apply keeps_try_catch.
  - apply keeps_bind; [apply keeps_pool|].
    intros rows. destruct (0 <? length rows); apply keeps_ret.
  - intros err. apply keeps_throw.
Qed.

(** Whatever holds of each call of the handler holds of the handler. *)
Lemma keeps_webhook_post body msg :
  first_message body = Some msg -> from msg = who ->
  keeps R P (webhook_post e body).
Proof.
  intros Hmsg Hfrom. unfold webhook_post. rewrite Hmsg, Hfrom.
  unfold hSet, expire, del.
  repeat first
    [ apply keeps_ret
    | apply keeps_throw
    | apply keeps_send
    | apply keeps_pool
    | apply keeps_chat
    | apply keeps_updateCodeInDatabase
    | apply keeps_hGetAll
    | apply keeps_redis; reflexivity
    | apply keeps_bind; [|intros ?]
    | apply keeps_try_catch; [|intros ?]
    | match goal with
      | |- keeps _ _ (if ?c then _ else _) => destruct c
      end ].
Qed.

End Keeps.

(** ** Other people's sessions *)

Lemma others_kept_refl k w : others_kept k w w.
Proof. intros k' _. split; reflexivity. Qed.

Lemma others_kept_trans k w1 w2 w3 :
  others_kept k w1 w2 -> others_kept k w2 w3 -> others_kept k w1 w3.
Proof.
  intros H12 H23 k' Hne. destruct (H12 k' Hne), (H23 k' Hne).
  split; congruence.
Qed.

Lemma others_kept_purge k w : others_kept k w (purge k w).
Proof.
  unfold purge. destruct (expired w k); [|apply others_kept_refl].
  intros k' Hne. cbn [set_redis redis deadline].
  split; apply lookup_delete_ne; congruence.
Qed.

Lemma others_kept_redis_apply c w :
  others_kept (cmd_key c) w (redis_apply c w).
Proof.
  destruct c; cbn [cmd_key redis_apply]; cbv zeta.
  - apply others_kept_purge.
  - intros k' Hne. cbn [set_redis redis deadline].
    rewrite lookup_insert_ne by congruence. apply others_kept_purge, Hne.
  - destruct (redis (purge key w) !! key); [|apply others_kept_purge].
    intros k' Hne. cbn [set_redis redis deadline].
    rewrite lookup_insert_ne by congruence. apply others_kept_purge, Hne.
  - intros k' Hne. cbn [set_redis redis deadline].
    split; apply lookup_delete_ne; congruence.
Qed.

(** X1: a request only concerns its sender.  Whatever the services do --
    failures included -- handling a message touches no session key but the
    sender's (every other hash and deadline is as it was), sends texts to
    nobody but the sender, and issues Redis commands on no other key. *)
Theorem X1_request_confined_to_sender e body msg w r w' evs :
  first_message body = Some msg ->
  webhook_post e body w = (r, w', evs) ->
  others_kept (key_of msg) w w'
  /\ Forall (about_sender (from msg)) evs.
Proof.
  intros Hmsg H.
  refine (keeps_webhook_post (others_kept (key_of msg))
            (about_sender (from msg)) (others_kept_refl _)
            (others_kept_trans _) e (from msg) _ _ _ _ body msg Hmsg eq_refl
            w r w' evs H).
  - intros c Hc w0 r0 w0' evs0 H0. unfold redis_call in H0. cbn [answered pass lapse steady] in H0.
    destruct (redis_fault e (tick w0)); inversion H0; subst.
    + split; [exact (others_kept_refl _ w0) | repeat constructor; exact Hc].
    + split; [|repeat constructor; exact Hc].
      unfold key_of. rewrite <- Hc. intros k' Hne.
      exact (others_kept_redis_apply c w0 k' Hne).
  - intros q w0 r0 w0' evs0 H0. unfold pool_query in H0. cbn [answered pass lapse steady] in H0.
    destruct (pg_fault e (tick w0)); inversion H0; subst;
      (split; [exact (others_kept_refl _ w0) | repeat constructor]).
  - intros b w0 r0 w0' evs0 H0. unfold sendText in H0. cbn [answered pass lapse steady] in H0.
    destruct (axios_fault e (tick w0)); inversion H0; subst;
      (split; [exact (others_kept_refl _ w0) | repeat constructor]).
  - intros t s d w0 r0 w0' evs0 H0. unfold validateWithOpenAI in H0. cbn [answered pass lapse steady] in H0.
    inversion H0; subst. split; [exact (others_kept_refl _ w0) | repeat constructor].
Qed.

Lemma X1_request_confined_to_sender_witness :
  let x := webhook_post env_ok (text_event sender "ABC123") two_sessions in
  redis (snd (fst x)) !! sessionKey_of bystander
  = Some {[ "step" := "ASK_NAME"; "phone" := bystander ]}
  /\ deadline (snd (fst x)) !! sessionKey_of bystander = Some 2700.
Proof.
  cbv zeta.
  destruct (X1_request_confined_to_sender env_ok (text_event sender "ABC123")
              (WaMessage sender (Some "ABC123")) two_sessions _ _ _
              eq_refl (triple_eta _)) as [Hk _].
  destruct (Hk (sessionKey_of bystander)) as [Hr Hd].
  - vm_compute. discriminate.
  - split; [etransitivity; [exact Hr | vm_compute; reflexivity]
           | etransitivity; [exact Hd | vm_compute; reflexivity]].
Defined.

(** ** The ledger under the conversation *)

Lemma ledger_kept_refl w : ledger_kept w w.
Proof.
  unfold ledger_kept. apply Forall_Forall2_diag, Forall_forall.
  intros r _. repeat split; reflexivity.
Qed.

Lemma ledger_kept_trans w1 w2 w3 :
  ledger_kept w1 w2 -> ledger_kept w2 w3 -> ledger_kept w1 w3.
Proof.
  unfold ledger_kept. generalize (codes_table w1) (codes_table w2) (codes_table w3).
  intros l1 l2 l3 H12. revert l3.
  induction H12 as [|r1 r2 l1 l2 (Hc & Hi & Hw & Hs) _ IH]; intros l3 H23.
  - inversion H23; subst. constructor.
  - inversion H23 as [|r2' r3 l2' l3' (Hc' & Hi' & Hw' & Hs') Hrest]; subst.
    constructor; [|apply IH; exact Hrest].
    repeat split; try congruence.
    intros Hna. pose proof (Hs Hna) as ->. apply Hs'. exact Hna.
Qed.

Lemma ledger_kept_exec q t w tbl' :
  tbl' = snd (exec q t (codes_table w)) ->
  ledger_kept w (next_tick (set_codes_table tbl' w)).
Proof.
  intros ->. unfold ledger_kept. cbn [next_tick set_codes_table codes_table].
  destruct q; cbn [exec snd];
    try (apply Forall_Forall2_diag, Forall_forall; intros r _;
         repeat split; reflexivity).
  apply Forall2_fmap_r, Forall_Forall2_diag, Forall_forall. intros r _.
  unfold compose. cbv beta. destruct (Codes.is_active_code c r) eqn:Ea; [|repeat split; reflexivity].
  unfold Codes.is_active_code in Ea. apply andb_true_iff in Ea.
  destruct Ea as [_ Es]. apply bool_decide_eq_true in Es.
  repeat split; try reflexivity. intros Hna. destruct (Hna Es).
Qed.

(** X2: the conversation never edits the ledger beyond claiming active
    rows.  With no other request writing the table, and whatever fails,
    after a request the table has the same rows in the same order; no row
    has changed its code, its id or its winner flag; and every row that was
    not active -- a finished registration -- is exactly as it was. *)
Theorem X2_finished_registrations_untouched e body w r w' evs :
  quiet e ->
  webhook_post e body w = (r, w', evs) ->
  ledger_kept w w'.
Proof.
  intros Hq H. destruct (first_message body) as [msg|] eqn:Hmsg.
  - refine (proj1 (keeps_webhook_post ledger_kept (fun _ => True)
              ledger_kept_refl ledger_kept_trans e (from msg) _ _ _ _
              body msg Hmsg eq_refl w r w' evs H)).
    + intros c _ w0 r0 w0' evs0 H0. unfold redis_call in H0. cbn [answered pass lapse steady] in H0.
      assert (forall w1, codes_table w1 = codes_table w0 -> ledger_kept w0 w1)
        as Hsame.
      { intros w1 E. unfold ledger_kept. rewrite E. apply ledger_kept_refl. }
      destruct (redis_fault e (tick w0)); inversion H0; subst;
        (split; [apply Hsame | repeat constructor]).
      * reflexivity.
      * cbn [next_tick codes_table]. apply codes_table_redis_apply.
    + intros q w0 r0 w0' evs0 H0. unfold pool_query in H0. cbn [answered pass lapse steady] in H0.
      rewrite Hq in H0.
      destruct (pg_fault e (tick w0)); inversion H0; subst;
        (split; [|repeat constructor]).
      * unfold ledger_kept. cbn [next_tick set_codes_table codes_table].
        apply ledger_kept_refl.
      * apply (ledger_kept_exec q (now w0)). reflexivity.
    + intros b w0 r0 w0' evs0 H0. unfold sendText in H0. cbn [answered pass lapse steady] in H0.
      destruct (axios_fault e (tick w0)); inversion H0; subst;
        (split; [exact (ledger_kept_refl w0) | repeat constructor]).
    + intros t s d w0 r0 w0' evs0 H0. unfold validateWithOpenAI in H0. cbn [answered pass lapse steady] in H0.
      inversion H0; subst.
      split; [exact (ledger_kept_refl w0) | repeat constructor].
  - unfold webhook_post in H. rewrite Hmsg in H.
    inversion H; subst. apply ledger_kept_refl.
Qed.

Lemma X2_finished_registrations_untouched_witness :
  ledger_kept two_sessions
    (snd (fst (webhook_post env_ok (text_event sender "ABC123") two_sessions))).
Proof.
  refine (X2_finished_registrations_untouched env_ok
            (text_event sender "ABC123") two_sessions _ _ _ _ (triple_eta _)).
  intros n tbl. reflexivity.
Defined.

(** ** When a service fails *)

Lemma try_catch_Throw_Return {A} (m : M A) h w err w1 t1 a w2 t2 :
  m w = (Throw err, w1, t1) ->
  h err w1 = (Return a, w2, t2) ->
  try_catch m h w = (Return a, w2, t1 ++ t2).
Proof. intros Hm Hh. unfold try_catch. rewrite Hm, Hh. reflexivity. Qed.

Section PartlyUp.

Variable e : env.
Hypothesis Hr : redis_up e.

Lemma redis_call_up c w :
  redis_call e c w = (Return tt, next_tick (redis_apply c w), [EvRedis c true]).
Proof. unfold redis_call. rewrite Hr. reflexivity. Qed.

Lemma hGetAll_up key w :
  hGetAll e key w
  = (Return (session_of w key), next_tick (purge key w),
     [EvRedis (HGetAll key) true]).
Proof. unfold hGetAll. rewrite redis_call_up. reflexivity. Qed.

End PartlyUp.

Lemma sendText_up e to body w :
  axios_up e ->
  sendText e to body w = (Return tt, next_tick w, [EvSend to body true]).
Proof. intros Ha. unfold sendText. rewrite Ha. reflexivity. Qed.

Lemma sendText_down e to body w :
  axios_fault e (tick w) = true ->
  sendText e to body w = (Throw AxiosError, next_tick w, [EvSend to body false]).
Proof. intros Ha. unfold sendText. rewrite Ha. reflexivity. Qed.

Lemma pool_query_down e q w :
  pg_fault e (tick w) = true ->
  pool_query e q w
  = (Throw PgError,
     next_tick (set_codes_table (pg_concurrent e (tick w) (codes_table w)) w),
     [EvQuery q None]).
Proof. intros Hp. unfold pool_query. rewrite Hp. reflexivity. Qed.


Ltac steps_up :=
  repeat first
    [ step_with hGetAll_up
    | step_with sendText_up
    | step_with redis_call_up
    | erewrite bind_Return by apply validateWithOpenAI_eq; cbv beta iota zeta ].

(** X3: a failing email query is caught.  In ASK_EMAIL with a valid
    verdict, when the query raises (Redis and the messaging API working),
    the handler still answers 200, the one text the user gets is the
    "something went wrong while checking your email" one, nothing is stored:
    the session is as it was, still at ASK_EMAIL. *)
Theorem X3_email_query_failure_is_caught e body msg w :
  redis_up e -> axios_up e ->
  first_message body = Some msg ->
  session_of w (key_of msg) !! "step" = Some "ASK_EMAIL" ->
  is_valid (verdict (reply_at e w msg "ASK_EMAIL")) = true ->
  pg_fault e (2 + tick w) = true ->
  exists w',
    webhook_post e body w
    = (Return 200, w',
       [EvRedis (HGetAll (key_of msg)) true;
        EvChat (text_of msg) "ASK_EMAIL" (session_of w (key_of msg))
          (reply_at e w msg "ASK_EMAIL");
        EvQuery (SelectByEmail
                   (value (verdict (reply_at e w msg "ASK_EMAIL")))) None;
        EvSend (from msg) email_check_failed_message true])
    /\ session_of w' (key_of msg) = session_of w (key_of msg)
    /\ redis w' = redis w.
Proof.
  intros Hr Ha Hmsg Hstep Hv Hp. unfold reply_at in *.
  pose proof (step_not_expired _ _ _ Hstep) as Hlive.
  unfold webhook_post. rewrite Hmsg. cbv beta iota zeta.
  fold (key_of msg) (text_of msg). steps_up. pick_step Hstep. steps_up.
  autorewrite with world. rewrite Hv. cbn [negb]. cbv iota.
  erewrite bind_Return.
  2: { eapply try_catch_Throw_Return.
       - apply bind_Throw, pool_query_down. autorewrite with world. exact Hp.
       - apply sendText_up. exact Ha. }
  cbv beta iota zeta. eexists. split; [reflexivity|].
  split.
  - autorewrite with session. reflexivity.
  - cbn [next_tick set_codes_table redis].
    rewrite purge_not_expired by exact Hlive. reflexivity.
Qed.

Lemma X3_email_query_failure_is_caught_witness :
  let x := webhook_post env_pg_down (text_event sender "john@example.com")
             (world_with (Some at_email) sample_table) in
  fst (fst x) = Return 200
  /\ sent (snd x) = [email_check_failed_message]
  /\ session_of (snd (fst x)) (sessionKey_of sender) = at_email.
Proof.
  cbv zeta.
  destruct (X3_email_query_failure_is_caught env_pg_down
              (text_event sender "john@example.com")
              (WaMessage sender (Some "john@example.com"))
              (world_with (Some at_email) sample_table))
    as (w' & Heq & Hs & _).
  - intros n. reflexivity.
  - intros n. reflexivity.
  - reflexivity.
  - vm_compute. reflexivity.
  - vm_compute. reflexivity.
  - reflexivity.
  - rewrite Heq. cbn [fst snd]. split; [reflexivity|].
    split; [reflexivity|]. etransitivity; [exact Hs | vm_compute; reflexivity].
Defined.


(** X4: a failing code lookup is caught.  In ASK_CODE with a valid
    verdict, when the lookup raises, the handler answers 200, the user gets
    the "something went wrong while checking your scratch code" text, no
    claim is attempted and the session is as it was. *)
Theorem X4_code_lookup_failure_is_caught e body msg w :
  redis_up e -> axios_up e ->
  first_message body = Some msg ->
  session_of w (key_of msg) !! "step" = Some "ASK_CODE" ->
  is_valid (verdict (reply_at e w msg "ASK_CODE")) = true ->
  pg_fault e (2 + tick w) = true ->
  exists w',
    webhook_post e body w
    = (Return 200, w',
       [EvRedis (HGetAll (key_of msg)) true;
        EvChat (text_of msg) "ASK_CODE" (session_of w (key_of msg))
          (reply_at e w msg "ASK_CODE");
        EvQuery (SelectActiveByCode
                   (value (verdict (reply_at e w msg "ASK_CODE")))) None;
        EvSend (from msg) code_check_failed_message true])
    /\ session_of w' (key_of msg) = session_of w (key_of msg)
    /\ redis w' = redis w.
Proof.
  intros Hr Ha Hmsg Hstep Hv Hp. unfold reply_at in *.
  pose proof (step_not_expired _ _ _ Hstep) as Hlive.
  unfold webhook_post. rewrite Hmsg. cbv beta iota zeta.
  fold (key_of msg) (text_of msg). steps_up. pick_step Hstep. steps_up.
  autorewrite with world. rewrite Hv. cbn [negb]. cbv iota.
  erewrite bind_Return.
  2: { eapply try_catch_Throw_Return.
       - apply bind_Throw, pool_query_down. autorewrite with world. exact Hp.
       - apply sendText_up. exact Ha. }
  cbv beta iota zeta. eexists. split; [reflexivity|].
  split.
  - autorewrite with session. reflexivity.
  - cbn [next_tick set_codes_table redis].
    rewrite purge_not_expired by exact Hlive. reflexivity.
Qed.

Lemma X4_code_lookup_failure_is_caught_witness :
  let x := webhook_post env_pg_down (text_event sender "ABC123")
             (world_with (Some at_code) sample_table) in
  fst (fst x) = Return 200
  /\ sent (snd x) = [code_check_failed_message]
  /\ session_of (snd (fst x)) (sessionKey_of sender) = at_code.
Proof.
  cbv zeta.
  destruct (X4_code_lookup_failure_is_caught env_pg_down
              (text_event sender "ABC123")
              (WaMessage sender (Some "ABC123"))
              (world_with (Some at_code) sample_table))
    as (w' & Heq & Hs & _).
  - intros n. reflexivity.
  - intros n. reflexivity.
  - reflexivity.
  - vm_compute. reflexivity.
  - vm_compute. reflexivity.
  - reflexivity.
  - rewrite Heq. cbn [fst snd]. split; [reflexivity|].
    split; [reflexivity|]. etransitivity; [exact Hs | vm_compute; reflexivity].
Defined.



(** X6: a reply that cannot be sent leaves nothing stored.  The welcome
    and the replies of ASK_NAME and ASK_CITY are sent before the session is
    written, outside any [try]: when that send raises, the exception leaves
    the handler (no status is returned), the session is not written -- not
    even for a valid name or city -- and [expire] is not reached. *)
Theorem X6_unsent_reply_stores_nothing e body msg w :
  redis_up e ->
  first_message body = Some msg ->
  (falsy (session_of w (key_of msg) !! "step") = true ->
   axios_fault e (1 + tick w) = true ->
   exists w',
     webhook_post e body w
     = (Throw AxiosError, w',
        [EvRedis (HGetAll (key_of msg)) true;
         EvSend (from msg) welcome_message false])
     /\ session_of w' (key_of msg) = session_of w (key_of msg))
  /\ (forall step,
        step = "ASK_NAME" \/ step = "ASK_CITY" ->
        session_of w (key_of msg) !! "step" = Some step ->
        axios_fault e (2 + tick w) = true ->
        exists w',
          webhook_post e body w
          = (Throw AxiosError, w',
             [EvRedis (HGetAll (key_of msg)) true;
              EvChat (text_of msg) step (session_of w (key_of msg))
                (reply_at e w msg step);
              EvSend (from msg) (message (verdict (reply_at e w msg step)))
                false])
          /\ session_of w' (key_of msg) = session_of w (key_of msg)).
Proof.
  intros Hr Hmsg. split.
  - intros Hstep Ha. unfold webhook_post. rewrite Hmsg. cbv beta iota zeta.
    fold (key_of msg). steps_up. rewrite Hstep.
    erewrite bind_Throw
      by (apply sendText_down; autorewrite with world; exact Ha).
    eexists. split; [reflexivity|]. autorewrite with session. reflexivity.
  - intros step Hcase Hstep Ha. unfold reply_at.
    unfold webhook_post. rewrite Hmsg. cbv beta iota zeta.
    fold (key_of msg) (text_of msg). steps_up.
    destruct Hcase as [-> | ->]; pick_step Hstep; steps_up;
      autorewrite with world;
      (erewrite bind_Throw
         by (apply sendText_down; autorewrite with world; exact Ha));
      (eexists; split; [reflexivity|]); autorewrite with session;
      reflexivity.
Qed.

Lemma X6_unsent_reply_stores_nothing_witness :
  (let x := webhook_post env_axios_down (text_event sender "hello")
              (world_with None sample_table) in
   fst (fst x) = Throw AxiosError
   /\ session_of (snd (fst x)) (sessionKey_of sender) = ∅)
  /\ (let x := webhook_post env_axios_down (text_event sender "John Doe")
                 (world_with (Some at_name) sample_table) in
      fst (fst x) = Throw AxiosError
      /\ session_of (snd (fst x)) (sessionKey_of sender) = at_name).
Proof.
  split; cbv zeta.
  - destruct (proj1 (X6_unsent_reply_stores_nothing env_axios_down
                       (text_event sender "hello")
                       (WaMessage sender (Some "hello"))
                       (world_with None sample_table)
                       (fun n => eq_refl) eq_refl))
      as (w' & Heq & Hs).
    + vm_compute. reflexivity.
    + reflexivity.
    + rewrite Heq. cbn [fst snd]. split; [reflexivity|].
      etransitivity; [exact Hs | vm_compute; reflexivity].
  - destruct (proj2 (X6_unsent_reply_stores_nothing env_axios_down
                       (text_event sender "John Doe")
                       (WaMessage sender (Some "John Doe"))
                       (world_with (Some at_name) sample_table)
                       (fun n => eq_refl) eq_refl) "ASK_NAME")
      as (w' & Heq & Hs).
    + left. reflexivity.
    + vm_compute. reflexivity.
    + reflexivity.
    + rewrite Heq. cbn [fst snd]. split; [reflexivity|].
      etransitivity; [exact Hs | vm_compute; reflexivity].
Defined.

(** X7: an outage of the extractor is a plain invalid answer to every
    step.  In each of the four steps, when the call of the model raises,
    the user gets the generic try-again text, the handler answers 200, the
    session and the table are as they were and no statement is sent to the
    ledger. *)
Theorem X7_extractor_outage_keeps_the_step e body msg w step :
  healthy e ->
  first_message body = Some msg ->
  step ∈ ["ASK_NAME"; "ASK_EMAIL"; "ASK_CITY"; "ASK_CODE"] ->
  session_of w (key_of msg) !! "step" = Some step ->
  reply_at e w msg step = None ->
  exists w',
    webhook_post e body w
    = (Return 200, w',
       [EvRedis (HGetAll (key_of msg)) true;
        EvChat (text_of msg) step (session_of w (key_of msg)) None;
        EvSend (from msg) retry_message true])
    /\ redis w' = redis w
    /\ deadline w' = deadline w
    /\ codes_table w' = codes_table w.
Proof.
  intros He Hmsg Hin Hstep Hnone.
  pose proof (step_not_expired _ _ _ Hstep) as Hlive.
  assert (forall W, W = next_tick (next_tick (next_tick
                          (purge (key_of msg) w))) ->
                    redis W = redis w /\ deadline W = deadline w
                    /\ codes_table W = codes_table w) as Hw.
  { intros W ->. rewrite purge_not_expired by exact Hlive.
    repeat split; reflexivity. }
  repeat (apply elem_of_cons in Hin; destruct Hin as [->|Hin]);
    [| | | |inversion Hin].
  - rewrite (post_field e He body msg w Hmsg "ASK_NAME" "ASK_EMAIL" "name")
      by (auto 10). cbv zeta. rewrite Hnone. cbn [verdict is_valid message].
    eexists. split; [reflexivity|]. apply Hw. reflexivity.
  - rewrite (post_ASK_EMAIL e He body msg w Hmsg Hstep). cbv zeta.
    rewrite Hnone. cbn [verdict is_valid message].
    eexists. split; [reflexivity|]. apply Hw. reflexivity.
  - rewrite (post_field e He body msg w Hmsg "ASK_CITY" "ASK_CODE" "city")
      by (auto 10). cbv zeta. rewrite Hnone. cbn [verdict is_valid message].
    eexists. split; [reflexivity|]. apply Hw. reflexivity.
  - rewrite (post_ASK_CODE e He body msg w Hmsg Hstep). cbv zeta.
    rewrite Hnone. cbn [verdict is_valid message].
    eexists. split; [reflexivity|]. apply Hw. reflexivity.
Qed.

Lemma X7_extractor_outage_keeps_the_step_witness :
  let x := webhook_post env_model_down (text_event sender "ABC123")
             (world_with (Some at_code) sample_table) in
  fst (fst x) = Return 200
  /\ sent (snd x) = [retry_message]
  /\ redis (snd (fst x)) = redis (world_with (Some at_code) sample_table).
Proof.
  cbv zeta.
  destruct (X7_extractor_outage_keeps_the_step env_model_down
              (text_event sender "ABC123")
              (WaMessage sender (Some "ABC123"))
              (world_with (Some at_code) sample_table) "ASK_CODE")
    as (w' & Heq & Hr & _).
  - intros n. repeat split; reflexivity.
  - reflexivity.
  - do 3 right. left.
  - vm_compute. reflexivity.
  - reflexivity.
  - rewrite Heq. cbn [fst snd]. split; [reflexivity|].
    split; [reflexivity | exact Hr].
Defined.

(** ** The shape of a session *)

Lemma pair_union_fst (a b x y : string) (m : gmap string string) :
  ({[ a := x; b := y ]} ∪ m) !! a = Some x.
Proof. apply lookup_union_Some_l, lookup_insert_eq. Qed.

Lemma pair_union_snd (a b x y : string) (m : gmap string string) :
  a <> b -> ({[ a := x; b := y ]} ∪ m) !! b = Some y.
Proof.
  intros Hne. apply lookup_union_Some_l. rewrite lookup_insert_ne by exact Hne.
  apply lookup_singleton_eq.
Qed.

Lemma pair_union_other (a b x y k : string) (m : gmap string string) :
  k <> a -> k <> b -> ({[ a := x; b := y ]} ∪ m) !! k = m !! k.
Proof.
  intros Ha Hb. apply lookup_union_r.
  rewrite lookup_insert_ne by congruence. apply lookup_singleton_ne. congruence.
Qed.

Lemma single_union_other (a x k : string) (m : gmap string string) :
  k <> a -> ({[ a := x ]} ∪ m) !! k = m !! k.
Proof. intros Ha. apply lookup_union_r, lookup_singleton_ne. congruence. Qed.

Lemma or_else_same s : or_else (Some s) s = s.
Proof. destruct s; reflexivity. Qed.

(** ** Sessions while the clock runs *)

Lemma outlives_le d d' w k :
  d' <= d -> outlives d w k = true -> outlives d' w k = true.
Proof.
  unfold outlives, expired. cbn [advance deadline now]. intros Hle.
  destruct (deadline w !! k) as [t|]; [|reflexivity].
  intros H. apply negb_true_iff, Nat.leb_gt in H.
  apply negb_true_iff, Nat.leb_gt. lia.
Qed.

(** A field written [d] seconds after the session was read: merged into
    the hash when the key is still there, a hash of its own without a
    timer when the key has run out. *)
Lemma HSet_after_wait k f d w w3 :
  redis w3 = redis w -> deadline w3 = deadline w -> now w3 = now w + d ->
  if outlives d w k
  then redis (redis_apply (HSet k f) w3) !! k
       = Some (f ∪ default ∅ (redis w !! k))
       /\ deadline (redis_apply (HSet k f) w3) !! k = deadline w !! k
  else redis (redis_apply (HSet k f) w3) !! k = Some f
       /\ deadline (redis_apply (HSet k f) w3) !! k = None.
Proof.
  intros Hr Hd Hn. cbn [redis_apply]. cbv zeta. cbn [set_redis redis deadline].
  rewrite lookup_insert_eq.
  assert (expired w3 k = expired (advance d w) k) as Hex
    by (unfold expired; rewrite Hd, Hn; reflexivity).
  unfold outlives. rewrite <- Hex. unfold purge.
  destruct (expired w3 k) eqn:E; cbn [negb].
  - cbn [set_redis redis deadline]. rewrite !lookup_delete_eq. cbn.
    split; [|reflexivity]. rewrite (right_id_L ∅ (∪)). reflexivity.
  - rewrite Hr, Hd. split; reflexivity.
Qed.

Section FieldStep.

Context {clk : Clock}.
Variable e : env.
Hypothesis He : healthy e.
Variables (body : wa_body) (msg : wa_message) (w : world).
Hypothesis Hmsg : first_message body = Some msg.

(** ASK_NAME and ASK_CITY while the clock runs. *)
Lemma field_step_cases (step next field : string) :
  (step = "ASK_NAME" /\ next = "ASK_EMAIL" /\ field = "name")
  \/ (step = "ASK_CITY" /\ next = "ASK_CODE" /\ field = "city") ->
  session_of w (key_of msg) !! "step" = Some step ->
  let key := key_of msg in
  let session := session_of w key in
  let res := reply_at e w msg step in
  let v := verdict res in
  let fields : gmap string string := {[ "step" := next; field := value v ]} in
  let pre := [EvRedis (HGetAll key) true;
              EvChat (text_of msg) step session res;
              EvSend (from msg) (message v) true] in
  exists w' evs,
    webhook_post e body w = (Return 200, w', evs)
    /\ if is_valid v
       then evs = pre ++ [EvRedis (HSet key fields) true]
            /\ (if outlives (code_wait w) w key
                then redis w' !! key = Some (fields ∪ session)
                     /\ deadline w' !! key = deadline w !! key
                else redis w' !! key = Some fields
                     /\ deadline w' !! key = None)
       else evs = pre /\ redis w' = redis w /\ deadline w' = deadline w.
Proof.
  intros Hcase Hstep. cbv zeta.
  pose proof (step_not_expired _ _ _ Hstep) as Hlive.
  pose proof (live_session _ _ _ Hstep) as Hsess.
  unfold webhook_post. rewrite Hmsg. cbv beta iota zeta.
  fold (key_of msg) (text_of msg). run_with @hGetAll_run.
  rewrite (purge_not_expired _ _ Hlive).
  assert (redis (answered (answered (answered w w) (answered w w))
                   (answered (answered w w) (answered w w))) = redis w
          /\ deadline (answered (answered (answered w w) (answered w w))
                         (answered (answered w w) (answered w w)))
             = deadline w
          /\ now (answered (answered (answered w w) (answered w w))
                    (answered (answered w w) (answered w w)))
             = now w + code_wait w) as (Hr3 & Hd3 & Hn3).
  { rewrite !redis_answered, !deadline_answered, !now_answered,
      !tick_answered.
    unfold code_wait. cbn [Nat.add]. repeat split; lia. }
  pose proof (HSet_after_wait (key_of msg)
                {[ "step" := next;
                   field := value (verdict (reply_at e w msg step)) ]}
                _ w _ Hr3 Hd3 Hn3) as Hstore.
  rewrite Hsess in Hstore. cbn [default] in Hstore.
  destruct Hcase as [(-> & -> & ->)|(-> & -> & ->)]; pick_step Hstep;
    runs; rewrite tick_answered; fold (reply_at e w msg "ASK_NAME");
    fold (reply_at e w msg "ASK_CITY");
    unfold hSet;
    match goal with |- context [is_valid ?v] => destruct (is_valid v) end;
    runs; eexists _, _; (split; [reflexivity|]); (split; [reflexivity|]);
    rewrite ?redis_answered, ?deadline_answered;
    first [exact Hstore | split; reflexivity].
Qed.

End FieldStep.

Section EmailStep.

Context {clk : Clock}.
Variable e : env.
Hypothesis He : healthy e.
Variables (body : wa_body) (msg : wa_message) (w : world).
Hypothesis Hmsg : first_message body = Some msg.
Hypothesis Hstep : session_of w (key_of msg) !! "step" = Some "ASK_EMAIL".

(** ASK_EMAIL while the clock runs. *)
Lemma email_step_cases :
  let key := key_of msg in
  let session := session_of w key in
  let res := reply_at e w msg "ASK_EMAIL" in
  let v := verdict res in
  let rows := filter (fun r => Codes.has_email (value v) r = true)
                (table_seen e 2 w) in
  let fields : gmap string string :=
    {[ "step" := "ASK_CITY"; "email" := value v ]} in
  let pre := [EvRedis (HGetAll key) true;
              EvChat (text_of msg) "ASK_EMAIL" session res] in
  let q := EvQuery (SelectByEmail (value v)) (Some (length rows)) in
  exists w' evs,
    webhook_post e body w = (Return 200, w', evs)
    /\ if is_valid v
       then match rows with
            | _ :: _ =>
                evs = pre ++ [q; EvSend (from msg) already_registered_message
                                   true]
                /\ redis w' = redis w /\ deadline w' = deadline w
            | [] =>
                evs = pre ++ [q; EvSend (from msg) (message v) true;
                              EvRedis (HSet key fields) true]
                /\ (if outlives (request_wait w) w key
                    then redis w' !! key = Some (fields ∪ session)
                         /\ deadline w' !! key = deadline w !! key
                    else redis w' !! key = Some fields
                         /\ deadline w' !! key = None)
            end
       else evs = pre ++ [EvSend (from msg) (message v) true]
            /\ redis w' = redis w /\ deadline w' = deadline w.
Proof.
  cbv zeta.
  pose proof (step_not_expired _ _ _ Hstep) as Hlive.
  pose proof (live_session _ _ _ Hstep) as Hsess.
  unfold webhook_post. rewrite Hmsg. cbv beta iota zeta.
  fold (key_of msg) (text_of msg). run_with @hGetAll_run.
  rewrite (purge_not_expired _ _ Hlive). pick_step Hstep.
  runs. rewrite tick_answered. fold (reply_at e w msg "ASK_EMAIL").
  destruct (is_valid _) eqn:Hv; cbn [negb]; cbv iota.
  - set (w2 := answered (answered w w) (answered w w)).
    assert (tick w2 = 2 + tick w /\ codes_table w2 = codes_table w
            /\ redis w2 = redis w /\ deadline w2 = deadline w
            /\ now w2 = now w + (lapse (tick w) + lapse (1 + tick w)))
      as (Ht2 & Hc2 & Hr2 & Hd2 & Hn2).
    { subst w2. rewrite !tick_answered, !codes_table_answered,
        !redis_answered, !deadline_answered, !now_answered, !tick_answered.
      cbn [Nat.add]. repeat split; lia. }
    set (v := verdict (reply_at e w msg "ASK_EMAIL")) in *.
    set (rows := filter (fun r => Codes.has_email (value v) r = true)
                   (table_seen e 2 w)).
    assert (pool_query e (SelectByEmail (value v)) w2
            = (Return rows,
               answered w2 (set_codes_table (table_seen e 2 w) w2),
               [EvQuery (SelectByEmail (value v)) (Some (length rows))]))
      as Hsel.
    { rewrite pool_query_run by exact He. cbv zeta. cbn [exec fst snd].
      rewrite Ht2, Hc2. reflexivity. }
    set (w3 := answered w2 (set_codes_table (table_seen e 2 w) w2)) in *.
    set (w4 := answered w3 w3).
    assert (redis w4 = redis w /\ deadline w4 = deadline w
            /\ now w4 = now w + request_wait w) as (Hr4 & Hd4 & Hn4).
    { subst w4 w3. rewrite !redis_answered, !deadline_answered,
        !now_answered, !tick_answered.
      cbn [set_codes_table redis deadline now tick]. rewrite Hr2, Hd2, Hn2, Ht2.
      unfold request_wait. cbn [Nat.add]. repeat split; lia. }
    pose proof (HSet_after_wait (key_of msg)
                  {[ "step" := "ASK_CITY"; "email" := value v ]}
                  _ w w4 Hr4 Hd4 Hn4) as Hstore.
    rewrite Hsess in Hstore. cbn [default] in Hstore.
    destruct rows as [|r0 rs] eqn:Hrows.
    + eexists _, _. split.
      { erewrite bind_Return
          by (apply try_catch_Return; erewrite bind_Return by exact Hsel;
              cbv beta iota zeta; cbn [length Nat.ltb Nat.leb];
              run_with @sendText_run; fold w4; unfold hSet;
              rewrite (redis_call_run e He); reflexivity).
        reflexivity. }
      split; [reflexivity|].
      rewrite redis_answered, deadline_answered. exact Hstore.
    + eexists _, _. split.
      { erewrite bind_Return
          by (apply try_catch_Return; erewrite bind_Return by exact Hsel;
              cbv beta iota zeta; cbn [length Nat.ltb Nat.leb];
              rewrite (sendText_run e He); reflexivity).
        reflexivity. }
      split; [reflexivity|].
      rewrite redis_answered, deadline_answered. subst w3.
      rewrite redis_answered, deadline_answered.
      cbn [set_codes_table redis deadline]. split; assumption.
  - runs. eexists _, _. split; [reflexivity|]. split; [reflexivity|].
    rewrite !redis_answered, !deadline_answered. split; reflexivity.
Qed.

End EmailStep.

(** ASK_CODE with a verdict that is not valid: the extractor's text, and
    nothing else. *)
Lemma code_step_invalid {clk : Clock} e body msg w :
  healthy e ->
  first_message body = Some msg ->
  session_of w (key_of msg) !! "step" = Some "ASK_CODE" ->
  is_valid (verdict (reply_at e w msg "ASK_CODE")) = false ->
  exists w',
    webhook_post e body w
    = (Return 200, w',
       [EvRedis (HGetAll (key_of msg)) true;
        EvChat (text_of msg) "ASK_CODE" (session_of w (key_of msg))
          (reply_at e w msg "ASK_CODE");
        EvSend (from msg) (message (verdict (reply_at e w msg "ASK_CODE")))
          true])
    /\ redis w' = redis w /\ deadline w' = deadline w.
Proof.
  intros He Hmsg Hstep Hv.
  pose proof (step_not_expired _ _ _ Hstep) as Hlive.
  unfold webhook_post. rewrite Hmsg. cbv beta iota zeta.
  fold (key_of msg) (text_of msg). run_with @hGetAll_run.
  rewrite (purge_not_expired _ _ Hlive). pick_step Hstep.
  runs. rewrite tick_answered. fold (reply_at e w msg "ASK_CODE").
  rewrite Hv. cbn [negb]. cbv iota. runs.
  eexists. split; [reflexivity|].
  rewrite !redis_answered, !deadline_answered. split; reflexivity.
Qed.

(** The welcome while the clock runs, whatever the store held under the
    key: afterwards the key is gone or holds the step and the phone. *)
Lemma welcome_cases {clk : Clock} e body msg w :
  healthy e ->
  first_message body = Some msg ->
  falsy (session_of w (key_of msg) !! "step") = true ->
  exists w',
    webhook_post e body w
    = (Return 200, w',
       [EvRedis (HGetAll (key_of msg)) true;
        EvSend (from msg) welcome_message true;
        EvRedis (HSet (key_of msg)
                   {[ "step" := "ASK_NAME"; "phone" := from msg ]}) true;
        EvRedis (Expire (key_of msg) (30 * 60)) true])
    /\ (redis w' !! key_of msg = None
        \/ exists h, redis w' !! key_of msg = Some h
                     /\ h !! "step" = Some "ASK_NAME"
                     /\ h !! "phone" = Some (from msg)).
Proof.
  intros He Hmsg Hstep.
  unfold webhook_post. rewrite Hmsg. cbv beta iota zeta.
  fold (key_of msg). run_with @hGetAll_run. rewrite Hstep.
  unfold hSet, expire. runs.
  eexists. split; [reflexivity|].
  rewrite redis_answered. cbn [redis_apply]. cbv zeta.
  match goal with
  | |- context [purge (key_of msg) (answered ?a ?b)] =>
      set (w3 := answered a b)
  end.
  assert (exists h, redis w3 !! key_of msg = Some h
                    /\ h !! "step" = Some "ASK_NAME"
                    /\ h !! "phone" = Some (from msg)) as (h & Hh & Hs & Hp).
  { subst w3. rewrite redis_answered. cbn [redis_apply]. cbv zeta.
    cbn [set_redis redis]. rewrite lookup_insert_eq. eexists.
    split; [reflexivity|].
    split; [apply pair_union_fst | apply pair_union_snd; discriminate]. }
  unfold purge. destruct (expired w3 (key_of msg)).
  - left. cbn [set_redis redis]. rewrite lookup_delete_eq.
    cbn [set_redis redis]. apply lookup_delete_eq.
  - right. rewrite Hh. cbn [set_redis redis]. eauto.
Qed.

Lemma session_of_cases w k :
  session_of w k = ∅ \/ session_of w k = default ∅ (redis w !! k).
Proof.
  unfold session_of, purge. destruct (expired w k); [left|right; reflexivity].
  cbn [set_redis redis]. rewrite lookup_delete_eq. reflexivity.
Qed.

Lemma session_ok_empty who : session_ok who ∅.
Proof. left. rewrite lookup_empty. reflexivity. Qed.

(** A well-formed hash in the store is read as such, or as nothing once it
    has run out. *)
Lemma session_ok_later who w k :
  session_ok who (default ∅ (redis w !! k)) ->
  forall d, session_ok who (session_of (advance d w) k).
Proof.
  intros H d. destruct (session_of_cases (advance d w) k) as [->| ->].
  - apply session_ok_empty.
  - exact H.
Qed.

(** X8: sessions keep their shape, and a claim carries a whole registrant.
    With services that answer and whatever time the awaited calls take, a
    request that finds a session absent or well formed for its sender
    (phone = the sender's address, a known step, the fields of the earlier
    steps present), and that is over with its first four calls before the
    session runs out, answers 200 and leaves a session that the next
    request, whenever it comes, finds absent or well formed.  Whenever the
    claim statement is sent, its phone is the sender's address and its
    name, email and city are all non-null. *)
Theorem X8_sessions_stay_well_formed (clk : Clock) e body msg w :
  healthy e ->
  first_message body = Some msg ->
  session_ok (from msg) (session_of w (key_of msg)) ->
  outlives (request_wait (clk := clk) w) w (key_of msg) = true ->
  exists w' evs,
    webhook_post (clk := clk) e body w = (Return 200, w', evs)
    /\ (forall d,
          session_ok (from msg) (session_of (advance d w') (key_of msg)))
    /\ forall ph nm em ct c n,
         In (EvQuery (UpdateClaim ph nm em ct c) n) evs ->
         ph = Some (from msg) /\ is_Some nm /\ is_Some em /\ is_Some ct.
Proof.
  intros He Hmsg Hok Hout.
  assert (outlives (code_wait w) w (key_of msg) = true) as Hout3.
  { apply (outlives_le (request_wait w)); [|exact Hout].
    unfold code_wait, request_wait. lia. }
  destruct Hok as [Hnew|(Hph & Hok)].
  - destruct (welcome_cases e body msg w He Hmsg Hnew) as (w' & Heq & Hst).
    exists w'. eexists. split; [exact Heq|]. split.
    + apply session_ok_later. destruct Hst as [->|(h & -> & Hs & Hp)].
      * apply session_ok_empty.
      * right. split; [exact Hp | left; exact Hs].
    + intros ph nm em ct c n Hin. exfalso. in_cases Hin.
  - destruct Hok as [Hstep|[(Hstep & Hn)|[(Hstep & Hn & Hem)
                                         |(Hstep & Hn & Hem & Hct)]]].
    + destruct (field_step_cases e He body msg w Hmsg
                  "ASK_NAME" "ASK_EMAIL" "name") as (w' & evs & Heq & Hc);
        [auto 10 | exact Hstep |]. cbv zeta in Hc.
      exists w', evs. split; [exact Heq|].
      destruct (is_valid _).
      * destruct Hc as (-> & Hst). rewrite Hout3 in Hst.
        destruct Hst as (Hr & _). split.
        { apply session_ok_later. rewrite Hr. right. cbn [default from_option id].
          split; [rewrite pair_union_other by discriminate; exact Hph|].
          right. left. split; [apply pair_union_fst|].
          rewrite pair_union_snd by discriminate. eauto. }
        intros ph nm em ct c n Hin. exfalso. in_cases Hin.
      * destruct Hc as (-> & Hr & _). split.
        { apply session_ok_later.
          rewrite Hr, (live_session _ _ _ Hstep). right.
          split; [exact Hph | left; exact Hstep]. }
        intros ph nm em ct c n Hin. exfalso. in_cases Hin.
    + destruct (email_step_cases e He body msg w Hmsg Hstep)
        as (w' & evs & Heq & Hc). cbv zeta in Hc.
      exists w', evs. split; [exact Heq|].
      assert (session_ok (from msg) (session_of w (key_of msg))) as Hsame
        by (right; split; [exact Hph | right; left; split; assumption]).
      destruct (is_valid _); [destruct (filter _ _)|].
      * destruct Hc as (-> & Hst). rewrite Hout in Hst.
        destruct Hst as (Hr & _). split.
        { apply session_ok_later. rewrite Hr. right. cbn [default from_option id].
          split; [rewrite pair_union_other by discriminate; exact Hph|].
          right. right. left. split; [apply pair_union_fst|].
          split; [rewrite pair_union_other by discriminate; exact Hn|].
          rewrite pair_union_snd by discriminate. eauto. }
        intros ph nm em ct c n Hin. exfalso. in_cases Hin.
      * destruct Hc as (-> & Hr & _). split.
        { apply session_ok_later.
          rewrite Hr, (live_session _ _ _ Hstep). exact Hsame. }
        intros ph nm em ct c n Hin. exfalso. in_cases Hin.
      * destruct Hc as (-> & Hr & _). split.
        { apply session_ok_later.
          rewrite Hr, (live_session _ _ _ Hstep). exact Hsame. }
        intros ph nm em ct c n Hin. exfalso. in_cases Hin.
    + destruct (field_step_cases e He body msg w Hmsg
                  "ASK_CITY" "ASK_CODE" "city") as (w' & evs & Heq & Hc);
        [auto 10 | exact Hstep |]. cbv zeta in Hc.
      exists w', evs. split; [exact Heq|].
      destruct (is_valid _).
      * destruct Hc as (-> & Hst). rewrite Hout3 in Hst.
        destruct Hst as (Hr & _). split.
        { apply session_ok_later. rewrite Hr. right. cbn [default from_option id].
          split; [rewrite pair_union_other by discriminate; exact Hph|].
          do 3 right. split; [apply pair_union_fst|].
          split; [rewrite pair_union_other by discriminate; exact Hn|].
          split; [rewrite pair_union_other by discriminate; exact Hem|].
          rewrite pair_union_snd by discriminate. eauto. }
        intros ph nm em ct c n Hin. exfalso. in_cases Hin.
      * destruct Hc as (-> & Hr & _). split.
        { apply session_ok_later.
          rewrite Hr, (live_session _ _ _ Hstep). right.
          split; [exact Hph | right; right; left; repeat split; assumption]. }
        intros ph nm em ct c n Hin. exfalso. in_cases Hin.
    + assert (session_ok (from msg) (session_of w (key_of msg))) as Hsame.
      { right. split; [exact Hph|]. do 3 right. repeat split; assumption. }
      destruct (is_valid (verdict (reply_at e w msg "ASK_CODE"))) eqn:Hv.
      * destruct (code_step_cases e He body msg w Hmsg Hstep Hv)
          as (w' & evs & Heq & Hc). cbv zeta in Hc.
        exists w', evs. split; [exact Heq|].
        destruct (filter _ (table_seen e 2 w));
          [|destruct (filter _ (pg_concurrent _ _ _))].
        -- destruct Hc as (-> & Hr & _). split.
           { apply session_ok_later.
             rewrite Hr, (live_session _ _ _ Hstep). exact Hsame. }
           intros ph nm em ct c n Hin. exfalso. in_cases Hin.
        -- destruct Hc as (-> & Hst). rewrite Hout3 in Hst.
           destruct Hst as (Hr & _). split.
           { apply session_ok_later. rewrite Hr. right. cbn [default from_option id].
             rewrite !lookup_insert_ne by discriminate.
             split; [exact Hph|]. do 3 right. repeat split; assumption. }
           intros ph nm em ct c n Hin. in_cases Hin.
           inversion Hin; subst. rewrite Hph, or_else_same.
           repeat split; assumption.
        -- destruct Hc as (-> & Hr & _). split.
           { apply session_ok_later. rewrite Hr. apply session_ok_empty. }
           intros ph nm em ct c n Hin. in_cases Hin.
           inversion Hin; subst. rewrite Hph, or_else_same.
           repeat split; assumption.
      * destruct (code_step_invalid e body msg w He Hmsg Hstep Hv)
          as (w' & Heq & Hr & _).
        exists w'. eexists. split; [exact Heq|]. split.
        { apply session_ok_later.
          rewrite Hr, (live_session _ _ _ Hstep). exact Hsame. }
        intros ph nm em ct c n Hin. exfalso. in_cases Hin.
Qed.

Lemma X8_sessions_stay_well_formed_witness :
  exists w' evs,
    webhook_post (clk := slow) env_ok (text_event sender "ABC123")
      (world_with (Some at_code) sample_table)
    = (Return 200, w', evs)
    /\ session_ok sender (session_of (advance 60 w') (sessionKey_of sender)).
Proof.
  destruct (X8_sessions_stay_well_formed slow env_ok
              (text_event sender "ABC123")
              (WaMessage sender (Some "ABC123"))
              (world_with (Some at_code) sample_table))
    as (w' & evs & Heq & Hok & _).
  - intros n. repeat split; reflexivity.
  - reflexivity.
  - right. split; [vm_compute; reflexivity|]. do 3 right.
    repeat split; vm_compute; eauto.
  - vm_compute. reflexivity.
  - exists w', evs. split; [exact Heq | exact (Hok 60)].
Defined.

(** X17: a session that runs out while the request waits is written back
    without its fields and without a timer.  In steps ASK_NAME and ASK_CITY
    the handler reads the session, awaits the extractor and the send, and
    then writes the next step and the field with HSET.  When the key has
    run out in between, HSET creates it anew: the hash holds the next step
    and the one field only, no EXPIRE follows, and the session is found
    like this however much later the next message comes. *)
Theorem X17_run_out_session_is_rewritten (clk : Clock) e body msg w
    (step next field : string) :
  healthy e ->
  first_message body = Some msg ->
  (step = "ASK_NAME" /\ next = "ASK_EMAIL" /\ field = "name")
  \/ (step = "ASK_CITY" /\ next = "ASK_CODE" /\ field = "city") ->
  session_of w (key_of msg) !! "step" = Some step ->
  is_valid (verdict (reply_at e w msg step)) = true ->
  outlives (code_wait (clk := clk) w) w (key_of msg) = false ->
  let key := key_of msg in
  let res := reply_at e w msg step in
  let fields : gmap string string :=
    {[ "step" := next; field := value (verdict res) ]} in
  exists w',
    webhook_post (clk := clk) e body w
    = (Return 200, w',
       [EvRedis (HGetAll key) true;
        EvChat (text_of msg) step (session_of w key) res;
        EvSend (from msg) (message (verdict res)) true;
        EvRedis (HSet key fields) true])
    /\ redis w' !! key = Some fields
    /\ deadline w' !! key = None
    /\ forall d, session_of (advance d w') key = fields.
Proof.
  intros He Hmsg Hcase Hstep Hv Hout. cbv zeta.
  destruct (field_step_cases e He body msg w Hmsg step next field Hcase Hstep)
    as (w' & evs & Heq & Hc). cbv zeta in Hc.
  rewrite Hv, Hout in Hc. destruct Hc as (-> & Hr & Hd).
  exists w'. split; [exact Heq|]. split; [exact Hr|]. split; [exact Hd|].
  intros d. unfold session_of.
  rewrite purge_not_expired by (apply expired_no_deadline; exact Hd).
  cbn [advance redis]. rewrite Hr. reflexivity.
Qed.

Lemma X17_run_out_session_is_rewritten_witness :
  exists w',
    fst (webhook_post (clk := slow) env_ok (text_event sender "Mumbai")
           world_running_out)
    = (Return 200, w')
    /\ session_of (advance 3600 w') (sessionKey_of sender)
       = {[ "step" := "ASK_CODE"; "city" := "Mumbai" ]}.
Proof.
  destruct (X17_run_out_session_is_rewritten slow env_ok
              (text_event sender "Mumbai")
              (WaMessage sender (Some "Mumbai"))
              world_running_out "ASK_CITY" "ASK_CODE" "city")
    as (w' & Heq & _ & _ & Hs).
  - intros n. repeat split; reflexivity.
  - reflexivity.
  - right. repeat split; reflexivity.
  - vm_compute. reflexivity.
  - vm_compute. reflexivity.
  - vm_compute. reflexivity.
  - exists w'. rewrite Heq. split; [reflexivity|].
    etransitivity; [exact (Hs 3600) | vm_compute; reflexivity].
Defined.


(** ** Thirty minutes *)

Lemma session_of_advance_live w k t d :
  deadline w !! k = Some t -> now w + d < t ->
  session_of (advance d w) k = session_of w k.
Proof.
  intros Hd Hlt. unfold session_of, purge, expired.
  cbn [advance deadline now]. rewrite Hd.
  destruct (t <=? now w + d) eqn:E1; [apply Nat.leb_le in E1; lia|].
  destruct (t <=? now w) eqn:E2; [apply Nat.leb_le in E2; lia|].
  reflexivity.
Qed.

Lemma session_of_advance_dead w k t d :
  deadline w !! k = Some t -> t <= now w + d ->
  session_of (advance d w) k = ∅.
Proof.
  intros Hd Hle. unfold session_of, purge, expired.
  cbn [advance deadline now]. rewrite Hd.
  destruct (t <=? now w + d) eqn:E1; [|apply Nat.leb_gt in E1; lia].
  cbn [set_redis redis]. rewrite lookup_delete_eq. reflexivity.
Qed.

(** X9: a session lives for 1800 seconds from the welcome.  After the
    welcome, a message from the same address that arrives less than 1800
    seconds later finds the session and is handled as the answer to
    ASK_NAME (it is handed to the extractor with the stored session); one
    that arrives 1800 seconds later or more finds nothing and is answered
    with the welcome again. *)
Theorem X9_session_lives_thirty_minutes e body msg w d body2 msg2 :
  healthy e ->
  first_message body = Some msg ->
  falsy (session_of w (key_of msg) !! "step") = true ->
  first_message body2 = Some msg2 ->
  from msg2 = from msg ->
  let started := {[ "step" := "ASK_NAME"; "phone" := from msg ]}
                 ∪ session_of w (key_of msg) in
  exists w',
    fst (webhook_post e body w) = (Return 200, w')
    /\ (d < 1800 ->
        exists w2 res rest,
          webhook_post e body2 (advance d w')
          = (Return 200, w2,
             [EvRedis (HGetAll (key_of msg)) true;
              EvChat (text_of msg2) "ASK_NAME" started res] ++ rest))
    /\ (1800 <= d ->
        exists w2,
          webhook_post e body2 (advance d w')
          = (Return 200, w2,
             [EvRedis (HGetAll (key_of msg)) true;
              EvSend (from msg) welcome_message true;
              EvRedis (HSet (key_of msg)
                         {[ "step" := "ASK_NAME"; "phone" := from msg ]}) true;
              EvRedis (Expire (key_of msg) (30 * 60)) true])).
Proof.
  intros He Hmsg Hnew Hmsg2 Hfrom. cbv zeta.
  assert (key_of msg2 = key_of msg) as Hk by (unfold key_of; congruence).
  destruct (welcome_outcome e body msg w He Hmsg Hnew)
    as (w' & Heq & Hs & Hstep & _ & Hd & _).
  assert (now w' = now w) as Hnow.
  { pose proof (post_welcome e He body msg w Hmsg Hnew) as Hpw.
    rewrite Heq in Hpw.
    apply (f_equal (fun x => now (snd (fst x)))) in Hpw.
    cbn [fst snd] in Hpw. rewrite Hpw. autorewrite with world. reflexivity. }
  exists w'. split; [rewrite Heq; reflexivity|]. split.
  - intros Hlt.
    assert (session_of (advance d w') (key_of msg2)
            = {[ "step" := "ASK_NAME"; "phone" := from msg ]}
              ∪ session_of w (key_of msg)) as Hlive.
    { rewrite Hk, <- Hs. eapply session_of_advance_live; [exact Hd|].
      rewrite Hnow. cbn. lia. }
    rewrite (post_field e He body2 msg2 (advance d w') Hmsg2
               "ASK_NAME" "ASK_EMAIL" "name")
      by (auto 10 || (rewrite Hlive; apply pair_union_fst)).
    cbv zeta. rewrite Hlive, Hk.
    destruct (is_valid _); eexists _, _, _; reflexivity.
  - intros Hge.
    assert (session_of (advance d w') (key_of msg2) = ∅) as Hdead.
    { rewrite Hk. eapply session_of_advance_dead; [exact Hd|].
      rewrite Hnow. cbn. lia. }
    rewrite (post_welcome e He body2 msg2 (advance d w') Hmsg2)
      by (rewrite Hdead; reflexivity).
    rewrite Hk, Hfrom. eexists. reflexivity.
Qed.

Lemma X9_session_lives_thirty_minutes_witness :
  exists w',
    fst (webhook_post env_ok (text_event sender "hello")
           (world_with None sample_table))
    = (Return 200, w')
    /\ sent (snd (webhook_post env_ok (text_event sender "John Doe")
                    (advance 1799 w')))
       = ["Great, noted! What comes next?"]
    /\ sent (snd (webhook_post env_ok (text_event sender "John Doe")
                    (advance 1800 w')))
       = [welcome_message].
Proof.
  destruct (X9_session_lives_thirty_minutes env_ok
              (text_event sender "hello") (WaMessage sender (Some "hello"))
              (world_with None sample_table) 1799
              (text_event sender "John Doe")
              (WaMessage sender (Some "John Doe")))
    as (w' & Heq & _ & _).
  - intros n. repeat split; reflexivity.
  - reflexivity.
  - vm_compute. reflexivity.
  - reflexivity.
  - reflexivity.
  - exists w'. split; [exact Heq|].
    vm_compute in Heq. inversion Heq; subst. split; vm_compute; reflexivity.
Defined.

(** ** Selecting winners *)

Module AdminFacts.
Import Admin.

Lemma is_inactive_set_winner b r : is_inactive (set_winner b r) = is_inactive r.
Proof. reflexivity. Qed.

Lemma is_listed_set_winner ids b r :
  is_listed ids (set_winner b r) = is_listed ids r.
Proof. reflexivity. Qed.

Lemma view_set_winner b r : view (set_winner b r) = view r.
Proof. reflexivity. Qed.

Lemma set_winner_twice b b' r : set_winner b (set_winner b' r) = set_winner b r.
Proof. reflexivity. Qed.

Lemma is_listed_reset ids r : is_listed ids (reset r) = is_listed ids r.
Proof. unfold reset. destruct (is_inactive r); reflexivity. Qed.

Lemma set_after_reset ids r :
  (if is_listed ids (reset r) then set_winner true (reset r) else reset r)
  = selected ids r.
Proof.
  rewrite is_listed_reset. unfold reset, selected, is_listed.
  destruct (is_inactive r) eqn:Ei; rewrite ?andb_false_r, ?andb_true_r;
    [|reflexivity].
  destruct (bool_decide _); reflexivity.
Qed.

Lemma filter_listed_fmap ids (f : Codes.row -> Codes.row)
    (tbl : list Codes.row) :
  (forall r, is_listed ids (f r) = is_listed ids r) ->
  filter (fun r => is_listed ids r = true) (f <$> tbl)
  = f <$> filter (fun r => is_listed ids r = true) tbl.
Proof.
  intros Hf. induction tbl as [|r tbl IH]; [reflexivity|].
  rewrite fmap_cons, !filter_cons, Hf.
  destruct (decide (is_listed ids r = true)); rewrite IH; reflexivity.
Qed.

Lemma is_listed_selected ids r : is_listed ids (selected ids r) = is_listed ids r.
Proof.
  unfold selected. destruct (is_inactive r); reflexivity.
Qed.

Lemma selected_twice ids r : selected ids (selected ids r) = selected ids r.
Proof.
  unfold selected. destruct (is_inactive r) eqn:Ei.
  - rewrite is_inactive_set_winner, Ei. reflexivity.
  - rewrite Ei. reflexivity.
Qed.

Section Up.

Variable e : env.
Hypothesis Hq : quiet e.

Lemma query_at q w :
  pg_fault e (tick w) = false ->
  query e q w
  = (Return (fst (run q (codes_table w))),
     next_tick (set_codes_table (snd (run q (codes_table w))) w),
     [(q, Some (length (fst (run q (codes_table w)))))]).
Proof. intros Hp. unfold query. rewrite Hp, Hq. reflexivity. Qed.

Lemma query_down q w :
  pg_fault e (tick w) = true ->
  query e q w = (Throw PgError, next_tick w, [(q, None)]).
Proof.
  intros Hp. unfold query. rewrite Hp, Hq. destruct w; reflexivity.
Qed.

(** What a selection that goes through does. *)
Lemma update_winners_ok i ids w :
  pg_fault e (tick w) = false -> pg_fault e (S (tick w)) = false ->
  update_winners e (Some (i :: ids)) w
  = (let hits := filter (fun r => is_listed (i :: ids) r = true)
                   (codes_table w) in
     (Return (Updated (length hits) (view <$> hits)),
      next_tick (next_tick
        (set_codes_table (selected (i :: ids) <$> codes_table w) w)),
      [(ResetWinners, Some 0);
       (SetWinners (i :: ids), Some (length hits))])).
Proof.
  intros H0 H1. unfold update_winners, qtry, qbind, qret.
  rewrite (query_at ResetWinners w H0).
  rewrite (query_at (SetWinners (i :: ids))) by exact H1.
  cbn [run fst snd next_tick set_codes_table codes_table].
  change (fun r => if is_inactive r then set_winner false r else r)
    with reset.
  rewrite (filter_listed_fmap _ reset) by apply is_listed_reset.
  assert (forall l : list Codes.row,
            view <$> (set_winner true <$> (reset <$> l)) = view <$> l) as E1.
  { intros l. rewrite <- !list_fmap_compose. apply list_fmap_ext.
    intros k r _. unfold compose, reset.
    destruct (is_inactive r); reflexivity. }
  assert (forall l : list Codes.row,
            (fun r => if is_listed (i :: ids) r then set_winner true r else r)
              <$> (reset <$> l)
            = selected (i :: ids) <$> l) as E2.
  { intros l. rewrite <- list_fmap_compose. apply list_fmap_ext.
    intros k r _. unfold compose. apply set_after_reset. }
  rewrite E1, E2, !length_fmap. reflexivity.
Qed.

End Up.

End AdminFacts.

(** X10: selecting winners sets the flag on exactly the listed finished
    registrations.  With PostgreSQL answering and nobody else writing, a
    non-empty list of ids is answered with success; afterwards an inactive
    row is a winner iff its id is in the list (earlier winners that are not
    listed lose the flag), rows that are not inactive are untouched, and no
    column other than is_winner changes anywhere.  The count and the
    winners reported are those of the inactive rows whose id is listed;
    ids that match no inactive row are silently ignored. *)
Theorem X10_winners_are_exactly_the_listed e ids w :
  pg_up e -> quiet e -> ids <> [] ->
  let hits := filter (fun r => Admin.is_listed ids r = true) (codes_table w) in
  exists w',
    Admin.update_winners e (Some ids) w
    = (Return (Admin.Updated (length hits) (Admin.view <$> hits)), w',
       [(Admin.ResetWinners, Some 0);
        (Admin.SetWinners ids, Some (length hits))])
    /\ redis w' = redis w /\ deadline w' = deadline w
    /\ Forall2 (fun r r' =>
                  Admin.set_winner (Codes.is_winner r) r' = r
                  /\ (Codes.status r <> "inactive" -> r' = r)
                  /\ (Codes.status r = "inactive" ->
                      (Codes.is_winner r' = true <-> Codes.code_id r ∈ ids)))
               (codes_table w) (codes_table w').
Proof.
  intros Hp Hq Hne. cbv zeta. destruct ids as [|i ids]; [congruence|].
  rewrite (AdminFacts.update_winners_ok e Hq i ids w (Hp _) (Hp _)).
  cbv zeta. eexists. split; [reflexivity|].
  split; [reflexivity|]. split; [reflexivity|].
  cbn [next_tick set_codes_table codes_table].
  apply Forall2_fmap_r, Forall_Forall2_diag, Forall_forall. intros r _.
  unfold compose. cbv beta. unfold Admin.selected, Admin.is_inactive.
  destruct (bool_decide (Codes.status r = "inactive")) eqn:Es.
  - apply bool_decide_eq_true in Es.
    split; [destruct r; reflexivity|]. split; [intros Hn; destruct (Hn Es)|].
    intros _. cbn [Admin.set_winner Codes.is_winner].
    apply bool_decide_eq_true.
  - apply bool_decide_eq_false in Es.
    split; [destruct r; reflexivity|]. split; [reflexivity|].
    intros Hi. destruct (Es Hi).
Qed.

Lemma X10_winners_are_exactly_the_listed_witness :
  exists w',
    Admin.update_winners env_ok (Some ["id-3"; "id-1"; "id-9"])
      (world_with None winners_table)
    = (Return (Admin.Updated 1
                 [{| Admin.id := "id-3"; Admin.winner_name := "Asha Rao";
                     Admin.winner_phone := "+919999999";
                     Admin.winner_city := "Pune" |}]), w',
       [(Admin.ResetWinners, Some 0);
        (Admin.SetWinners ["id-3"; "id-1"; "id-9"], Some 1)])
    /\ Codes.is_winner <$> codes_table w' = [false; false; true].
Proof.
  destruct (X10_winners_are_exactly_the_listed env_ok
              ["id-3"; "id-1"; "id-9"] (world_with None winners_table))
    as (w' & Heq & _).
  - intros n. reflexivity.
  - intros n tbl. reflexivity.
  - discriminate.
  - exists w'. split; [etransitivity; [exact Heq | vm_compute; reflexivity]|].
    vm_compute in Heq. inversion Heq; subst. vm_compute. reflexivity.
Defined.

(** X11: selecting the same winners again changes nothing.  Under the same
    conditions, a second call with the same list leaves the table as the
    first left it and gives the same answer. *)
Theorem X11_selecting_winners_is_idempotent e ids w :
  pg_up e -> quiet e -> ids <> [] ->
  let first := Admin.update_winners e (Some ids) w in
  let second := Admin.update_winners e (Some ids) (snd (fst first)) in
  fst (fst second) = fst (fst first)
  /\ codes_table (snd (fst second)) = codes_table (snd (fst first)).
Proof.
  intros Hp Hq Hne. cbv zeta. destruct ids as [|i ids]; [congruence|].
  rewrite (AdminFacts.update_winners_ok e Hq i ids w (Hp _) (Hp _)).
  cbv zeta. cbn [fst snd].
  rewrite (AdminFacts.update_winners_ok e Hq i ids _ (Hp _) (Hp _)).
  cbv zeta. cbn [fst snd next_tick set_codes_table codes_table].
  rewrite (AdminFacts.filter_listed_fmap _ (Admin.selected (i :: ids)))
    by apply AdminFacts.is_listed_selected.
  rewrite <- !list_fmap_compose, !length_fmap. split.
  - do 2 f_equal. apply list_fmap_ext. intros k r _. unfold compose.
    unfold Admin.selected. destruct (Admin.is_inactive r); reflexivity.
  - apply list_fmap_ext. intros k r _. unfold compose.
    apply AdminFacts.selected_twice.
Qed.

Lemma X11_selecting_winners_is_idempotent_witness :
  let first := Admin.update_winners env_ok (Some ["id-3"])
                 (world_with None winners_table) in
  let second := Admin.update_winners env_ok (Some ["id-3"]) (snd (fst first)) in
  fst (fst second) = fst (fst first)
  /\ codes_table (snd (fst second)) = codes_table (snd (fst first)).
Proof.
  apply (X11_selecting_winners_is_idempotent env_ok ["id-3"]
           (world_with None winners_table)).
  - intros n. reflexivity.
  - intros n tbl. reflexivity.
  - discriminate.
Defined.

(** X12: the reset is not undone when the second statement fails.  The
    two updates are separate statements outside any transaction: when the
    first goes through and the second raises, the answer is the 500 error
    and every finished registration has lost its winner flag, the earlier
    winners included; nothing else has changed. *)
Theorem X12_failed_selection_clears_winners e ids w :
  quiet e -> ids <> [] ->
  pg_fault e (tick w) = false ->
  pg_fault e (S (tick w)) = true ->
  exists w',
    Admin.update_winners e (Some ids) w
    = (Return (Admin.ServerError "Failed to update winners"), w',
       [(Admin.ResetWinners, Some 0); (Admin.SetWinners ids, None)])
    /\ codes_table w' = Admin.reset <$> codes_table w
    /\ Forall (fun r' => Codes.status r' = "inactive" ->
                         Codes.is_winner r' = false) (codes_table w').
Proof.
  intros Hq Hne H0 H1. destruct ids as [|i ids]; [congruence|].
  unfold Admin.update_winners, Admin.qtry, Admin.qbind, Admin.qret.
  rewrite (AdminFacts.query_at e Hq Admin.ResetWinners w H0).
  rewrite (AdminFacts.query_down e Hq) by exact H1.
  eexists. split; [reflexivity|]. split; [reflexivity|].
  cbn [next_tick set_codes_table codes_table Admin.run snd].
  apply Forall_fmap, Forall_forall. intros r _ Hs. cbn in Hs |- *.
  unfold Admin.is_inactive in *.
  destruct (bool_decide (Codes.status r = "inactive")) eqn:Es;
    [reflexivity|].
  apply bool_decide_eq_false in Es. destruct (Es Hs).
Qed.

Lemma X12_failed_selection_clears_winners_witness :
  exists w',
    Admin.update_winners env_pg_second_fails (Some ["id-3"])
      (world_with None winners_table)
    = (Return (Admin.ServerError "Failed to update winners"), w',
       [(Admin.ResetWinners, Some 0); (Admin.SetWinners ["id-3"], None)])
    /\ Codes.is_winner <$> codes_table w' = [false; false; false].
Proof.
  destruct (X12_failed_selection_clears_winners env_pg_second_fails ["id-3"]
              (world_with None winners_table))
    as (w' & Heq & Ht & _).
  - intros n tbl. reflexivity.
  - discriminate.
  - reflexivity.
  - reflexivity.
  - exists w'. split; [exact Heq|]. rewrite Ht. vm_compute. reflexivity.
Defined.

(** X13: the endpoint always answers.  Whatever PostgreSQL does, the
    handler returns a response and raises nothing; without a list, or with
    an empty one, the answer is the 400 error and no statement is sent. *)
Theorem X13_update_winners_always_answers e ids w :
  exists resp w' evs,
    Admin.update_winners e ids w = (Return resp, w', evs)
    /\ (ids = None \/ ids = Some [] ->
        resp = Admin.BadRequest "Winner IDs are required"
        /\ w' = w /\ evs = [])
    /\ (forall i l, ids = Some (i :: l) ->
        (exists n ws, resp = Admin.Updated n ws)
        \/ resp = Admin.ServerError "Failed to update winners").
Proof.
  unfold Admin.update_winners, Admin.qtry, Admin.qbind, Admin.qret, Admin.query.
  destruct ids as [[|i l]|].
  - eexists _, _, _. split; [reflexivity|].
    split; [intros _; repeat split|intros ? ? [=]].
  - destruct (pg_fault e (tick w)) eqn:H0.
    + eexists _, _, _. split; [reflexivity|].
      split; [intros [[=]|[=]]|]. intros _ _ _. right. reflexivity.
    + cbn [next_tick set_codes_table tick codes_table].
      destruct (pg_fault e (S (tick w))) eqn:H1.
      * eexists _, _, _. split; [reflexivity|].
        split; [intros [[=]|[=]]|]. intros _ _ _. right. reflexivity.
      * eexists _, _, _. split; [reflexivity|].
        split; [intros [[=]|[=]]|]. intros _ _ _. left. eauto.
  - eexists _, _, _. split; [reflexivity|].
    split; [intros _; repeat split|intros ? ? [=]].
Qed.

(** ** The legacy email check *)

Module LegacyFacts.
Import Legacy.

Example validateEmail_samples :
  validateEmail (units "a@b.c") = true
  /\ validateEmail (units "john.doe@mail.example.com") = true
  /\ validateEmail (units "a@b") = false
  /\ validateEmail (units "a b@c.d") = false
  /\ validateEmail (units "a@@b.c") = false
  /\ validateEmail (units "a@.c") = false
  /\ validateEmail (units "a@b.") = false
  /\ validateEmail (units "@b.c") = false
  /\ validateEmail [] = false.
Proof. repeat split; vm_compute; reflexivity. Qed.

Lemma lang_nil_nullable r s : lang r s -> s = [] -> nullable r = true.
Proof.
  induction 1 as [|p c Hp|a b s1 s2 _ IH1 _ IH2|a b s _ IH|a b s _ IH
                 |a|a s1 s2 _ _ _ _]; intros E; cbn; try reflexivity.
  - discriminate.
  - apply app_eq_nil in E. destruct E as [-> ->].
    rewrite IH1, IH2; reflexivity.
  - rewrite IH by exact E. reflexivity.
  - rewrite IH by exact E. apply orb_true_r.
Qed.

Lemma nullable_lang_nil r : nullable r = true -> lang r [].
Proof.
  induction r as [| |p|a IHa b IHb|a IHa b IHb|a _]; cbn; intros H;
    try discriminate.
  - constructor.
  - apply andb_true_iff in H. destruct H as [Ha Hb].
    apply (lang_Cat a b [] []); auto.
  - apply orb_true_iff in H. destruct H as [Ha|Hb];
      [apply lang_Alt_l | apply lang_Alt_r]; auto.
  - constructor.
Qed.

Lemma deriv_sound c r : forall s, lang (deriv c r) s -> lang r (c :: s).
Proof.
  induction r as [| |p|a IHa b IHb|a IHa b IHb|a IHa]; cbn; intros s H.
  - inversion H.
  - inversion H.
  - destruct (p c) eqn:Hp; inversion H; subst. constructor. exact Hp.
  - destruct (nullable a) eqn:Hn.
    + inversion H as [| | | ? ? ? H1 | ? ? ? H1 | |]; subst.
      * inversion H1; subst.
        apply (lang_Cat a b (c :: _) _); auto.
      * apply (lang_Cat a b [] (c :: s)); [apply nullable_lang_nil|]; auto.
    + inversion H; subst. apply (lang_Cat a b (c :: _) _); auto.
  - inversion H; subst; [apply lang_Alt_l | apply lang_Alt_r]; auto.
  - inversion H; subst. apply (lang_Star_cons a (c :: _) _); auto.
Qed.

Lemma deriv_complete c r s' :
  lang r s' -> forall s, s' = c :: s -> lang (deriv c r) s.
Proof.
  induction 1 as [|p c' Hp|a b s1 s2 H1 IH1 H2 IH2|a b s0 _ IH|a b s0 _ IH
                 |a|a s1 s2 H1 IH1 H2 IH2]; intros s E; cbn.
  - discriminate.
  - inversion E; subst. rewrite Hp. constructor.
  - destruct s1 as [|c1 s1].
    + cbn in E. rewrite (lang_nil_nullable a [] H1 eq_refl).
      apply lang_Alt_r. apply IH2. exact E.
    + inversion E; subst.
      assert (lang (Cat (deriv c a) b) (s1 ++ s2)) as Hc
        by (constructor; auto).
      destruct (nullable a); [apply lang_Alt_l|]; exact Hc.
  - apply lang_Alt_l. apply IH. exact E.
  - apply lang_Alt_r. apply IH. exact E.
  - discriminate.
  - destruct s1 as [|c1 s1].
    + cbn in E. apply IH2. exact E.
    + inversion E; subst. constructor; auto.
Qed.

(** The test decides the language of the pattern. *)
Lemma test_lang s : forall r, test r s = true <-> lang r s.
Proof.
  induction s as [|c s IH]; intros r; cbn.
  - split; [apply nullable_lang_nil | intros H; apply (lang_nil_nullable r []); auto].
  - rewrite IH. split; [apply deriv_sound|].
    intros H. apply (deriv_complete c r (c :: s)); auto.
Qed.

Lemma lang_Cat_inv a b s :
  lang (Cat a b) s <-> exists s1 s2, s = s1 ++ s2 /\ lang a s1 /\ lang b s2.
Proof.
  split.
  - intros H. inversion H; subst. eauto.
  - intros (s1 & s2 & -> & H1 & H2). constructor; auto.
Qed.

Lemma lang_Chr_inv c s : lang (Chr c) s <-> s = [c].
Proof.
  unfold Chr. split.
  - intros H. inversion H as [|p c' Hp| | | | |]; subst.
    apply N.eqb_eq in Hp. subst. reflexivity.
  - intros ->. constructor. apply N.eqb_refl.
Qed.

Lemma lang_Star_Cls p s' :
  lang (Star (Cls p)) s' <-> Forall (fun c => p c = true) s'.
Proof.
  split.
  - intros H. remember (Star (Cls p)) as r eqn:Er.
    induction H as [| | | | | |a s1 s2 H1 _ H2 IH2]; try discriminate.
    + constructor.
    + inversion Er; subst. inversion H1; subst.
      constructor; [assumption | apply IH2; reflexivity].
  - induction 1 as [|c s Hc _ IH]; [constructor|].
    apply (lang_Star_cons (Cls p) [c] s); [constructor; exact Hc | exact IH].
Qed.

Lemma lang_Plus_Cls p s :
  lang (Plus (Cls p)) s <-> s <> [] /\ Forall (fun c => p c = true) s.
Proof.
  unfold Plus. rewrite lang_Cat_inv. split.
  - intros (s1 & s2 & -> & H1 & H2). inversion H1; subst.
    apply lang_Star_Cls in H2. split; [discriminate | constructor; assumption].
  - intros [Hne HF]. destruct HF as [|c s Hc HF]; [congruence|].
    exists [c], s. split; [reflexivity|].
    split; [constructor; exact Hc | apply lang_Star_Cls; exact HF].
Qed.

End LegacyFacts.

(** X14: [validateEmail] accepts exactly the strings of the form
    local@domain.tail in which the three parts are non-empty and consist of
    characters that are neither white space nor @ (so the string holds no
    white space and exactly one @, and the part after the @ has a dot that
    is neither its first nor its last character). *)
Theorem X14_validateEmail_accepts_exactly s :
  Legacy.validateEmail s = true
  <-> exists l d t,
        s = l ++ Legacy.at_sign :: d ++ Legacy.dot :: t
        /\ l <> [] /\ d <> [] /\ t <> []
        /\ Forall (fun c => Legacy.plain c = true) (l ++ d ++ t).
Proof.
  unfold Legacy.validateEmail, Legacy.email_re.
  rewrite LegacyFacts.test_lang, LegacyFacts.lang_Cat_inv. split.
  - intros (l & s1 & -> & Hl & H1).
    apply LegacyFacts.lang_Cat_inv in H1.
    destruct H1 as (a & s2 & -> & Ha & H2).
    apply LegacyFacts.lang_Chr_inv in Ha. subst a.
    apply LegacyFacts.lang_Cat_inv in H2.
    destruct H2 as (d & s3 & -> & Hd & H3).
    apply LegacyFacts.lang_Cat_inv in H3.
    destruct H3 as (b & t & -> & Hb & Ht).
    apply LegacyFacts.lang_Chr_inv in Hb. subst b.
    apply LegacyFacts.lang_Plus_Cls in Hl, Hd, Ht.
    destruct Hl as [Hl Fl], Hd as [Hd Fd], Ht as [Ht Ft].
    exists l, d, t. repeat split; try assumption.
    rewrite !Forall_app. auto.
  - intros (l & d & t & -> & Hl & Hd & Ht & HF).
    rewrite !Forall_app in HF. destruct HF as (Fl & Fd & Ft).
    exists l, (Legacy.at_sign :: d ++ Legacy.dot :: t).
    split; [reflexivity|].
    split; [apply LegacyFacts.lang_Plus_Cls; auto|].
    apply (Legacy.lang_Cat _ _ [Legacy.at_sign] (d ++ Legacy.dot :: t));
      [apply LegacyFacts.lang_Chr_inv; reflexivity|].
    apply Legacy.lang_Cat; [apply LegacyFacts.lang_Plus_Cls; auto|].
    apply (Legacy.lang_Cat _ _ [Legacy.dot] t);
      [apply LegacyFacts.lang_Chr_inv; reflexivity|].
    apply LegacyFacts.lang_Plus_Cls; auto.
Qed.

(** ** The code step when nobody else writes *)

(** The valid branch of ASK_CODE when the table is this request's alone. *)
Lemma code_step_quiet e body msg w :
  healthy e -> quiet e ->
  first_message body = Some msg ->
  session_of w (key_of msg) !! "step" = Some "ASK_CODE" ->
  is_valid (verdict (reply_at e w msg "ASK_CODE")) = true ->
  let v := verdict (reply_at e w msg "ASK_CODE") in
  let session := session_of w (key_of msg) in
  let hit := filter (fun r => Codes.is_active_code (value v) r = true)
               (codes_table w) in
  exists w' evs,
    webhook_post e body w = (Return 200, w', evs)
    /\ now w' = now w
    /\ (hit = [] ->
        sent evs = [invalid_code_message]
        /\ codes_table w' = codes_table w
        /\ session_of w' (key_of msg) = session)
    /\ (hit <> [] ->
        sent evs = [registration_complete_message]
        /\ redis w' !! key_of msg = None
        /\ codes_table w'
           = claimed_by (Some (or_else (session !! "phone") (from msg)))
               (session !! "name") (session !! "email") (session !! "city")
               (value v) (now w) (codes_table w)).
Proof.
  intros He Hq Hmsg Hstep Hv. cbv zeta.
  rewrite (post_ASK_CODE e He body msg w Hmsg Hstep). cbv zeta. rewrite Hv.
  unfold table_seen. rewrite !Hq. cbn [exec fst snd]. rewrite length_fmap.
  destruct (filter _ (codes_table w)) as [|r0 hit] eqn:Ehit.
  - cbn [length Nat.ltb Nat.leb]. eexists _, _. split; [reflexivity|].
    split; [autorewrite with world; reflexivity|]. split; [|congruence].
    intros _. split; [reflexivity|].
    split; [autorewrite with world; reflexivity|].
    autorewrite with session. reflexivity.
  - cbn [length]. change (0 <? S (length hit)) with true. cbv iota.
    eexists _, _. split; [reflexivity|].
    split; [autorewrite with world; reflexivity|]. split; [congruence|].
    intros _. split; [reflexivity|].
    split; [cbn [next_tick redis]; apply redis_Del|].
    autorewrite with world. reflexivity.
Qed.

(** X15: without concurrent writers a found code is always claimed.  With
    services that answer and no other request writing the table, the valid
    branch of ASK_CODE ends in exactly one of two ways.  If no active row
    carries the code, the invalid-code text is sent and session and table
    stay as they are.  Otherwise the rows carrying it are claimed for the
    registrant held in the session (at the current time), the session is
    deleted and the success text is sent.  The registration-failed text is
    never sent: it needs another request to take the code in between. *)
Theorem X15_found_code_is_claimed e body msg w :
  healthy e -> quiet e ->
  first_message body = Some msg ->
  session_of w (key_of msg) !! "step" = Some "ASK_CODE" ->
  is_valid (verdict (reply_at e w msg "ASK_CODE")) = true ->
  let v := verdict (reply_at e w msg "ASK_CODE") in
  let session := session_of w (key_of msg) in
  let hit := filter (fun r => Codes.is_active_code (value v) r = true)
               (codes_table w) in
  exists w' evs,
    webhook_post e body w = (Return 200, w', evs)
    /\ now w' = now w
    /\ (hit = [] ->
        sent evs = [invalid_code_message]
        /\ codes_table w' = codes_table w
        /\ session_of w' (key_of msg) = session)
    /\ (hit <> [] ->
        sent evs = [registration_complete_message]
        /\ redis w' !! key_of msg = None
        /\ codes_table w'
           = claimed_by (Some (or_else (session !! "phone") (from msg)))
               (session !! "name") (session !! "email") (session !! "city")
               (value v) (now w) (codes_table w)).
Proof. apply code_step_quiet. Qed.

Lemma X15_found_code_is_claimed_witness :
  let x := webhook_post env_ok (text_event sender "ABC123")
             (world_with (Some at_code) sample_table) in
  sent (snd x) = [registration_complete_message]
  /\ codes_table (snd (fst x))
     = [Codes.claim_row (Some sender) (Some "John Doe")
          (Some "john@example.com") (Some "Mumbai") 1000
          (fresh_code "ABC123" "id-1");
        used_code "OLD111" "id-2" "asha@example.com"].
Proof.
  cbv zeta.
  destruct (X15_found_code_is_claimed env_ok (text_event sender "ABC123")
              (WaMessage sender (Some "ABC123"))
              (world_with (Some at_code) sample_table))
    as (w' & evs & Heq & _ & _ & Hhit).
  - intros n. repeat split; reflexivity.
  - intros n tbl. reflexivity.
  - reflexivity.
  - vm_compute. reflexivity.
  - vm_compute. reflexivity.
  - rewrite Heq. cbn [fst snd]. destruct Hhit as (Hsent & _ & Ht).
    + vm_compute. discriminate.
    + split; [exact Hsent|]. etransitivity; [exact Ht|]. vm_compute. reflexivity.
Defined.

(** ** A whole conversation *)

Section Transitions.

Variable e : env.
Hypothesis He : healthy e.
Variables (body : wa_body) (msg : wa_message) (w : world).
Hypothesis Hmsg : first_message body = Some msg.




End Transitions.



